(** * The MCP HTTP client of [mcpshittester.py]

    A shallow embedding of [MCPHTTPClient]: the session object with its
    token and its connection handle, the low-level [_post] that builds the
    request headers, performs one exchange and de-frames the reply (SSE
    [data:] lines first, bare JSON second), and the three RPC wrappers.

    Python values are modelled as the interpreter has them: a [str] is a
    sequence of Unicode code points, a [dict] with string keys is a finite
    map, exceptions are values of [exn] threaded through a state-and-error
    monad together with the mutable client object and a trace of what went
    over the wire. *)

From Stdlib Require Import ZArith NArith String Ascii DecimalString.
From stdpp Require Import base option list gmap.

#[local] Set Warnings "-register-all".
Local Open Scope N_scope.

(** ** Python strings *)

(** A Python [str]: code points, in order. *)
Abbreviation str := (list N).

(** A literal of the source, read as ASCII. *)
Definition lit (s : string) : str :=
  (λ a, N_of_ascii a) <$> list_ascii_of_string s.
Arguments lit : simpl never.

(** [str(n)] for an [int]. *)
Definition str_of_int (z : Z) : str :=
  lit (NilZero.string_of_int (Z.to_int z)).

Definition mem (c : N) (cs : list N) : bool := existsb (N.eqb c) cs.

(** The line boundaries of [str.splitlines]: LF, VT, FF, CR, FS, GS, RS,
    NEL, LINE SEPARATOR, PARAGRAPH SEPARATOR. *)
Definition is_linebreak (c : N) : bool :=
  mem c [10; 11; 12; 13; 28; 29; 30; 133; 8232; 8233].

(** The characters [str.isspace] accepts, which [str.strip] removes. *)
Definition is_space (c : N) : bool :=
  mem c [9; 10; 11; 12; 13; 28; 29; 30; 31; 32; 133; 160; 5760;
         8232; 8233; 8239; 8287; 12288]
  || ((8192 <=? c) && (c <=? 8202)).

(** [cur] holds the characters of the line being read, newest first. A
    CR LF pair is one boundary; a final boundary opens no empty line. *)
Fixpoint splitlines_from (cur : str) (s : str) : list str :=
  match s with
  | [] => match cur with [] => [] | _ => [rev cur] end
  | c :: r =>
      if is_linebreak c then
        rev cur ::
          match r with
          | c' :: r' =>
              if (c =? 13) && (c' =? 10) then splitlines_from [] r'
              else splitlines_from [] r
          | [] => []
          end
      else splitlines_from (c :: cur) r
  end.

(** [s.splitlines()] *)
Definition splitlines (s : str) : list str := splitlines_from [] s.

(** [s.startswith(p)] *)
Definition startswith (p s : str) : bool := bool_decide (p `prefix_of` s).

Fixpoint lstrip (s : str) : str :=
  match s with
  | c :: r => if is_space c then lstrip r else s
  | [] => []
  end.

Definition rstrip (s : str) : str := rev (lstrip (rev s)).

(** [s.strip()] *)
Definition strip (s : str) : str := rstrip (lstrip s).

(** ** JSON values *)

(** What [json.loads] builds and what [json=payload] serialises: [None],
    [bool], [int], [float], [str], [list] and [dict]. A [dict] keeps its
    insertion order. No arithmetic on floats is done by the client, so a
    float is kept as the literal that denotes it. *)
Inductive JSON :=
| JNull
| JBool (b : bool)
| JInt (z : Z)
| JFloat (lexeme : str)
| JString (s : str)
| JArray (items : list JSON)
| JObject (fields : list (str * JSON)).

(** [d[k] = v] on an insertion-ordered dict. *)
Fixpoint dict_set (k : str) (v : JSON) (d : list (str * JSON))
  : list (str * JSON) :=
  match d with
  | [] => [(k, v)]
  | (k', v') :: d' =>
      if bool_decide (k = k') then (k, v) :: d'
      else (k', v') :: dict_set k v d'
  end.

(** [d.get(k)] *)
Fixpoint dict_get (k : str) (d : list (str * JSON)) : option JSON :=
  match d with
  | [] => None
  | (k', v) :: d' => if bool_decide (k = k') then Some v else dict_get k d'
  end.

(** ** Exceptions *)

(** The exception classes that can cross [_post]. All of them derive from
    [Exception]; [JSONDecodeError] is the only one the fallback handler
    names. *)
Inductive exn :=
| JSONDecodeError
| ValueError (msg : str)
| RecursionError
| AttributeError (msg : str)
| RuntimeError (msg : str)
| ClientError (msg : str)
| TimeoutError.

Inductive result (A : Type) :=
| Return (a : A)
| Raise (e : exn).
Arguments Return {A} a.
Arguments Raise {A} e.

(** ** A reader for JSON text

    [json.loads] belongs to the interpreter's library; the client is
    verified for any behaviour of it (see [Section Client]). The reader
    below follows the grammar [json.loads] accepts for a [str] (C scanner,
    [strict=True], the [NaN]/[Infinity] extensions included) and is what the
    examples run. The interpreter's resource limits (recursion depth, integer
    digit limit) are outside it. *)
Module Reader.

Definition is_ws (c : N) : bool := mem c [32; 9; 10; 13].

Fixpoint skip_ws (s : str) : str :=
  match s with
  | c :: r => if is_ws c then skip_ws r else s
  | [] => []
  end.

Definition is_digit (c : N) : bool := (48 <=? c) && (c <=? 57).

Fixpoint digits (s : str) : str * str :=
  match s with
  | c :: r =>
      if is_digit c then let '(ds, r') := digits r in (c :: ds, r')
      else ([], s)
  | [] => ([], [])
  end.

Definition int_of_digits (ds : str) : Z :=
  foldl (λ acc c, (10 * acc + Z.of_N (c - 48))%Z) 0%Z ds.

Definition hex_digit (c : N) : option N :=
  if is_digit c then Some (c - 48)
  else if (97 <=? c) && (c <=? 102) then Some (c - 87)
  else if (65 <=? c) && (c <=? 70) then Some (c - 55)
  else None.

(** Four hexadecimal digits of a [\uXXXX] escape. *)
Definition hex4 (s : str) : option (N * str) :=
  match s with
  | a :: b :: c :: d :: r =>
      a ← hex_digit a; b ← hex_digit b; c ← hex_digit c; d ← hex_digit d;
      Some (((a * 16 + b) * 16 + c) * 16 + d, r)
  | _ => None
  end.

Definition simple_escape (c : N) : option N :=
  if c =? 34 then Some 34 else if c =? 92 then Some 92
  else if c =? 47 then Some 47 else if c =? 98 then Some 8
  else if c =? 102 then Some 12 else if c =? 110 then Some 10
  else if c =? 114 then Some 13 else if c =? 116 then Some 9
  else None.

(** The body of a string, after its opening quote. A high surrogate
    followed by an escaped low surrogate is one character. *)
Fixpoint scanstring (fuel : nat) (acc : str) (s : str) : option (str * str) :=
  match fuel with
  | O => None
  | S fuel =>
      match s with
      | [] => None
      | c :: r =>
          if c =? 34 then Some (rev acc, r)
          else if c =? 92 then
            match r with
            | [] => None
            | e :: r' =>
                if e =? 117 then
                  '(u, r1) ← hex4 r';
                  match r1 with
                  | 92 :: 117 :: r2 =>
                      if (55296 <=? u) && (u <=? 56319) then
                        '(u2, r3) ← hex4 r2;
                        if (56320 <=? u2) && (u2 <=? 57343) then
                          scanstring fuel
                            (65536 + (N.lor (N.shiftl (u - 55296) 10)
                                            (u2 - 56320)) :: acc) r3
                        else scanstring fuel (u :: acc) r1
                      else scanstring fuel (u :: acc) r1
                  | _ => scanstring fuel (u :: acc) r1
                  end
                else
                  x ← simple_escape e; scanstring fuel (x :: acc) r'
            end
          else if c <? 32 then None
          else scanstring fuel (c :: acc) r
      end
  end.

(** [p] removed from the front of [s]. *)
Fixpoint after (p s : str) : option str :=
  match p, s with
  | [], _ => Some s
  | a :: p', b :: s' => if a =? b then after p' s' else None
  | _ :: _, [] => None
  end.

(** A number: an optional minus, an integer part without leading zeros,
    an optional fraction, an optional exponent. With neither fraction nor
    exponent it is an [int]. *)
Definition scan_number (s : str) : option (JSON * str) :=
  let '(neg, s1) :=
    match s with 45 :: r => (true, r) | _ => (false, s) end in
  let '(ds, s2) := digits s1 in
  match ds with
  | [] => None
  | d :: ds' =>
      let '(ip, r) := if d =? 48 then ([d], ds' ++ s2) else (ds, s2) in
      let '(fp, r) :=
        match r with
        | 46 :: r' =>
            match digits r' with
            | ([], _) => ([], r)
            | (fs, r'') => (46 :: fs, r'')
            end
        | _ => ([], r)
        end in
      let '(ep, r) :=
        match r with
        | e :: r' =>
            if (e =? 101) || (e =? 69) then
              let '(sg, r'') :=
                match r' with
                | x :: y => if (x =? 43) || (x =? 45) then ([x], y)
                            else ([], r')
                | [] => ([], r')
                end in
              match digits r'' with
              | ([], _) => ([], r)
              | (es, r3) => (e :: sg ++ es, r3)
              end
            else ([], r)
        | [] => ([], r)
        end in
      let sign : str := if neg then [45] else [] in
      match fp, ep with
      | [], [] =>
          Some (JInt (if neg then - int_of_digits ip else int_of_digits ip)%Z,
                r)
      | _, _ => Some (JFloat (sign ++ ip ++ fp ++ ep), r)
      end
  end.

Definition scan_constant (s : str) : option (JSON * str) :=
  match after (lit "null") s with Some r => Some (JNull, r) | None =>
  match after (lit "true") s with Some r => Some (JBool true, r) | None =>
  match after (lit "false") s with Some r => Some (JBool false, r) | None =>
  match after (lit "NaN") s with Some r => Some (JFloat (lit "NaN"), r) | None =>
  match after (lit "Infinity") s with
  | Some r => Some (JFloat (lit "Infinity"), r) | None =>
  match after (lit "-Infinity") s with
  | Some r => Some (JFloat (lit "-Infinity"), r)
  | None => scan_number s
  end end end end end end.

(** One value at the front of [s], and the text after it. *)
Fixpoint scan_once (fuel : nat) (s : str) : option (JSON * str) :=
  match fuel with
  | O => None
  | S fuel =>
      match s with
      | 34 :: r =>
          '(x, r') ← scanstring (length r) [] r; Some (JString x, r')
      | 123 :: r =>
          match skip_ws r with
          | 125 :: r' => Some (JObject [], r')
          | r' => scan_members fuel [] r'
          end
      | 91 :: r =>
          match skip_ws r with
          | 93 :: r' => Some (JArray [], r')
          | r' => scan_items fuel [] r'
          end
      | _ => scan_constant s
      end
  end
with scan_items (fuel : nat) (acc : list JSON) (s : str)
  : option (JSON * str) :=
  match fuel with
  | O => None
  | S fuel =>
      '(v, r) ← scan_once fuel s;
      match skip_ws r with
      | 93 :: r' => Some (JArray (rev (v :: acc)), r')
      | 44 :: r' => scan_items fuel (v :: acc) (skip_ws r')
      | _ => None
      end
  end
with scan_members (fuel : nat) (acc : list (str * JSON)) (s : str)
  : option (JSON * str) :=
  match fuel with
  | O => None
  | S fuel =>
      match s with
      | 34 :: r =>
          '(k, r1) ← scanstring (length r) [] r;
          match skip_ws r1 with
          | 58 :: r2 =>
              '(v, r3) ← scan_once fuel (skip_ws r2);
              match skip_ws r3 with
              | 125 :: r4 => Some (JObject (dict_set k v acc), r4)
              | 44 :: r4 => scan_members fuel (dict_set k v acc) (skip_ws r4)
              | _ => None
              end
          | _ => None
          end
      | _ => None
      end
  end.

(** [json.loads(s)]: one value, blanks allowed around it, nothing else.
    Every nested call of the scanner has consumed a character, so twice
    the length of the text is fuel enough. *)
Definition loads (s : str) : result JSON :=
  match scan_once (2 * length s + 2) (skip_ws s) with
  | Some (v, r) =>
      match skip_ws r with
      | [] => Return v
      | _ => Raise JSONDecodeError
      end
  | None => Raise JSONDecodeError
  end.

End Reader.

(** ** The objects of the exchange *)

Local Open Scope Z_scope.

Definition MCP_VERSION : str := lit "2024-11-05".

(** An [aiohttp.ClientSession], by the order of its creation. *)
Abbreviation ClientSession := nat.

(** The arguments of one [ClientSession.post] call. *)
Record request := {
  req_url : str;
  req_json : JSON;
  req_headers : gmap str str;
  req_timeout : Z
}.

(** What [_post] reads from a response: [resp.status], [resp.headers] (a
    case-insensitive multi-dict: pairs in arrival order) and the body as
    [resp.text()] decodes it. *)
Record reply := {
  resp_status : Z;
  resp_headers : list (str * str);
  resp_text : str
}.

(** How an exchange ends: with a reply, or with the exception raised by
    [post] or by [resp.text()] before the status is looked at. *)
Inductive exchange :=
| Answers (r : reply)
| Fails (e : exn).

(** What the client does to the outside, in order. *)
Inductive event :=
| Opened (h : ClientSession)
| Closed (h : ClientSession)
| Posted (h : ClientSession) (req : request)
| Received (r : reply).

(** The fields of an [MCPHTTPClient]. *)
Record MCPHTTPClient := {
  base_url : str;
  session_id : option str;
  http : option ClientSession
}.

(** The client object, the events so far (oldest first) and the answers
    the network holds for the posts to come. With none left, a post times
    out. *)
Record state := {
  self : MCPHTTPClient;
  trace : list event;
  pending : list exchange
}.

(** ** Coroutines as state transformers that may raise *)

Definition M (A : Type) : Type := state → result A * state.

Definition ret {A} (a : A) : M A := λ σ, (Return a, σ).

Definition raise {A} (e : exn) : M A := λ σ, (Raise e, σ).

Definition bind {A B} (m : M A) (k : A → M B) : M B :=
  λ σ, match m σ with
       | (Return a, σ') => k a σ'
       | (Raise e, σ') => (Raise e, σ')
       end.

Notation "'let!' x ':=' m 'in' k" := (bind m (λ x, k))
  (at level 10, x pattern, m at level 100, k at level 200).

Definition get_self : M MCPHTTPClient := λ σ, (Return (self σ), σ).

(** [self.session_id = sid] *)
Definition set_session_id (sid : str) : M unit :=
  λ σ, (Return (),
        {| self := {| base_url := base_url (self σ);
                      session_id := Some sid;
                      http := http (self σ) |};
           trace := trace σ; pending := pending σ |}).

(** [self.http = h] *)
Definition set_http (h : option ClientSession) : M unit :=
  λ σ, (Return (),
        {| self := {| base_url := base_url (self σ);
                      session_id := session_id (self σ);
                      http := h |};
           trace := trace σ; pending := pending σ |}).

Definition emit (e : event) : M unit :=
  λ σ, (Return (),
        {| self := self σ; trace := trace σ ++ [e]; pending := pending σ |}).

(** [aiohttp.ClientSession()] *)
Definition ClientSession_new : M ClientSession :=
  λ σ, let h := length (trace σ) in
       (Return h,
        {| self := self σ; trace := trace σ ++ [Opened h];
           pending := pending σ |}).

(** [await h.close()] *)
Definition ClientSession_close (h : ClientSession) : M unit :=
  emit (Closed h).

(** The next answer of the network. *)
Definition exchange_next : M reply :=
  λ σ, match pending σ with
       | [] => (Raise TimeoutError, σ)
       | Fails e :: rest =>
           (Raise e, {| self := self σ; trace := trace σ; pending := rest |})
       | Answers r :: rest =>
           (Return r,
            {| self := self σ; trace := trace σ ++ [Received r];
               pending := rest |})
       end.

(** [async with h.post(url, json=.., headers=.., timeout=..) as resp] and
    [await resp.text()]. With [None] for [h] the attribute lookup fails and
    nothing is sent. A session that the client holds is open: [__aexit__],
    the only place that closes one, drops it in the same step. *)
Definition ClientSession_post (h : option ClientSession) (req : request)
  : M reply :=
  match h with
  | None =>
      raise (AttributeError (lit "'NoneType' object has no attribute 'post'"))
  | Some h =>
      let! _ := emit (Posted h req) in
      exchange_next
  end.

(** The identity of a header name in a case-insensitive multi-dict. Header
    names are ASCII tokens. *)
Definition lower (k : str) : str :=
  (λ c, if (65 <=? c) && (c <=? 90) then c + 32 else c)%N <$> k.

(** [hs.get(k)]: the value of the first entry under [k], if any. *)
Fixpoint ci_get (k : str) (hs : list (str * str)) : option str :=
  match hs with
  | [] => None
  | (k', v) :: hs' =>
      if bool_decide (lower k' = lower k) then Some v else ci_get k hs'
  end.

(** Truth value of an optional string: [None] and [''] are false. *)
Definition truthy (s : option str) : bool :=
  match s with
  | Some (_ :: _) => true
  | _ => false
  end.

(** ** The client *)

Section Client.

(** [json.loads], from the interpreter's library. *)
Variable json_loads : str → result JSON.

Definition __init__ (base_url : str) : MCPHTTPClient :=
  {| base_url := base_url; session_id := None; http := None |}.

Definition __aenter__ : M unit :=
  let! h := ClientSession_new in
  set_http (Some h).

Definition __aexit__ : M unit :=
  let! self := get_self in
  match http self with
  | Some h =>
      let! _ := ClientSession_close h in
      set_http None
  | None => ret ()
  end.

(** Low-level POST that sends a JSON-RPC message and parses SSE or JSON.
    The [log] line writes to the console and is left out. *)
Definition _post (payload : JSON) (extra_headers : option (gmap str str))
    (timeout : Z) : M JSON :=
  let! self := get_self in
  let headers : gmap str str :=
    <[lit "mcp-protocol-version" := MCP_VERSION]>
      (<[lit "Accept" := lit "application/json, text/event-stream"]>
         (<[lit "Content-Type" := lit "application/json"]> ∅)) in
  let headers :=
    match session_id self with
    | Some sid =>
        if truthy (Some sid) then <[lit "mcp-session-id" := sid]> headers
        else headers
    | None => headers
    end in
  let headers :=
    match extra_headers with
    | Some extra =>
        if bool_decide (extra ≠ ∅) then extra ∪ headers else headers
    | None => headers
    end in
  let! resp :=
    ClientSession_post (http self)
      {| req_url := base_url self; req_json := payload;
         req_headers := headers; req_timeout := timeout |} in
  if 400 <=? resp_status resp then
    raise (RuntimeError
             (lit "MCP HTTP " ++ str_of_int (resp_status resp) ++ lit ": "
                ++ take 300 (resp_text resp)))
  else
    (* store session ID if new *)
    let sid := ci_get (lit "mcp-session-id") (resp_headers resp) in
    let! _ :=
      match sid with
      | Some s => if truthy sid then set_session_id s else ret ()
      | None => ret ()
      end in
    (* Parse SSE data: lines starting with "data:" *)
    let messages :=
      foldl
        (λ messages line,
           if startswith (lit "data:") line then
             match json_loads (strip (drop (length (lit "data:")) line)) with
             | Return m => messages ++ [m]
             | Raise _ => messages
             end
           else messages)
        [] (splitlines (resp_text resp)) in
    match last messages with
    | Some m => ret m
    | None =>
        (* fallback: try normal JSON *)
        match json_loads (resp_text resp) with
        | Return v => ret v
        | Raise JSONDecodeError =>
            raise (RuntimeError
                     (lit "Unexpected MCP response: " ++ take 200 (resp_text resp)))
        | Raise e => raise e
        end
    end.

(** *** High-level RPC wrappers *)

Definition initialize : M JSON :=
  let payload :=
    JObject
      [(lit "jsonrpc", JString (lit "2.0"));
       (lit "id", JInt 1);
       (lit "method", JString (lit "initialize"));
       (lit "params",
        JObject
          [(lit "protocolVersion", JString MCP_VERSION);
           (lit "capabilities", JObject []);
           (lit "clientInfo",
            JObject [(lit "name", JString (lit "azure-http-client"));
                     (lit "version", JString (lit "1.0"))])])] in
  let! resp := _post payload None 25 in
  ret resp.

Definition list_tools : M JSON :=
  let payload :=
    JObject
      [(lit "jsonrpc", JString (lit "2.0"));
       (lit "id", JInt 2);
       (lit "method", JString (lit "tools/list"));
       (lit "params", JObject [])] in
  _post payload None 25.

Definition call_tool (name : str) (arguments : JSON) : M JSON :=
  let payload :=
    JObject
      [(lit "jsonrpc", JString (lit "2.0"));
       (lit "id", JInt 3);
       (lit "method", JString (lit "tools/call"));
       (lit "params",
        JObject [(lit "name", JString name);
                 (lit "arguments", arguments)])] in
  _post payload None 25.

End Client.

(** ** Sessions

    A caller drives one client through a sequence of calls. An exception
    of a call reaches the caller, who may go on with the same client. *)

Inductive call :=
| Enter
| Exit
| Post (payload : JSON) (extra_headers : option (gmap str str)) (timeout : Z)
| Initialize
| ListTools
| CallTool (name : str) (arguments : JSON).

Section Sessions.

Variable json_loads : str → result JSON.

Definition perform (c : call) (σ : state) : state :=
  match c with
  | Enter => (__aenter__ σ).2
  | Exit => (__aexit__ σ).2
  | Post payload extra_headers timeout =>
      (_post json_loads payload extra_headers timeout σ).2
  | Initialize => (initialize json_loads σ).2
  | ListTools => (list_tools json_loads σ).2
  | CallTool name arguments => (call_tool json_loads name arguments σ).2
  end.

Definition run (cs : list call) (σ : state) : state :=
  foldl (λ σ c, perform c σ) σ cs.

End Sessions.

(** [MCPHTTPClient(url)] in a world where nothing has happened yet and the
    network will answer with [script]. *)
Definition boot (url : str) (script : list exchange) : state :=
  {| self := __init__ url; trace := []; pending := script |}.

(** ** The specification's vocabulary *)

Definition session_key : str := lit "mcp-session-id".

(** [extra_headers.get(k)], with nothing for an absent mapping. *)
Definition extra_get (extra : option (gmap str str)) (k : str) : option str :=
  match extra with
  | Some m => m !! k
  | None => None
  end.

(** A call that leaves the session-token header to the client. *)
Definition plain (c : call) : Prop :=
  match c with
  | Post _ extra _ => extra_get extra session_key = None
  | _ => True
  end.

(** Request envelope: [encode(id, method, params)]. *)
Definition encode (id : Z) (method : str) (params : JSON) : JSON :=
  JObject [(lit "jsonrpc", JString (lit "2.0"));
           (lit "id", JInt id);
           (lit "method", JString method);
           (lit "params", params)].

(** The payload of a [data:] line, when the line is one and its payload
    parses. *)
Definition sse_payload (loads : str → result JSON) (line : str)
  : option JSON :=
  if startswith (lit "data:") line then
    match loads (strip (drop 5 line)) with
    | Return m => Some m
    | Raise _ => None
    end
  else None.

(** Response decoder, steps 1 to 5 of the specification. *)
Definition decode (loads : str → result JSON) (r : reply) : result JSON :=
  if 400 <=? resp_status r then
    Raise (RuntimeError
             (lit "MCP HTTP " ++ str_of_int (resp_status r) ++ lit ": "
                ++ take 300 (resp_text r)))
  else
    match last (omap (sse_payload loads) (splitlines (resp_text r))) with
    | Some m => Return m
    | None =>
        match loads (resp_text r) with
        | Return v => Return v
        | Raise JSONDecodeError =>
            Raise (RuntimeError
                     (lit "Unexpected MCP response: "
                        ++ take 200 (resp_text r)))
        | Raise e => Raise e
        end
    end.

(** Session-state tracker: the token held after a reply has been seen. *)
Definition observe (tok : option str) (r : reply) : option str :=
  if 400 <=? resp_status r then tok
  else
    match ci_get session_key (resp_headers r) with
    | Some (c :: s) => Some (c :: s)
    | _ => tok
    end.

(** The token held after a stretch of events. *)
Fixpoint token_after (tok : option str) (evs : list event) : option str :=
  match evs with
  | [] => tok
  | Received r :: evs' => token_after (observe tok r) evs'
  | _ :: evs' => token_after tok evs'
  end.

(** Every request of a stretch of events carries the token held when it
    was sent. *)
Fixpoint echoes (tok : option str) (evs : list event) : Prop :=
  match evs with
  | [] => True
  | Posted _ req :: evs' =>
      req_headers req !! session_key = tok ∧ echoes tok evs'
  | Received r :: evs' => echoes (observe tok r) evs'
  | _ :: evs' => echoes tok evs'
  end.

(** The headers [_post] gives a request, from the stored token and the
    caller's extra headers. *)
Definition sent_headers (tok : option str) (extra : option (gmap str str))
  : gmap str str :=
  let headers : gmap str str :=
    <[lit "mcp-protocol-version" := MCP_VERSION]>
      (<[lit "Accept" := lit "application/json, text/event-stream"]>
         (<[lit "Content-Type" := lit "application/json"]> ∅)) in
  let headers :=
    match tok with
    | Some (c :: s) => <[session_key := c :: s]> headers
    | _ => headers
    end in
  match extra with
  | Some m => m ∪ headers
  | None => headers
  end.

Definition with_token (tok : option str) (σ : state) : state :=
  {| self := {| base_url := base_url (self σ); session_id := tok;
                http := http (self σ) |};
     trace := trace σ; pending := pending σ |}.

Definition with_world (evs : list event) (rest : list exchange) (σ : state)
  : state :=
  {| self := self σ; trace := trace σ ++ evs; pending := rest |}.

(** The request of a [_post] call made in state [σ]. *)
Definition request_of (σ : state) (payload : JSON)
    (extra : option (gmap str str)) (timeout : Z) : request :=
  {| req_url := base_url (self σ); req_json := payload;
     req_headers := sent_headers (session_id (self σ)) extra;
     req_timeout := timeout |}.

(** One exchange made from [σ] on session [h] with [body] as the request's
    JSON: one request on the wire, one answer taken from the network at
    most, and the decoder's verdict on that answer as the result. *)
Definition one_exchange (loads : str → result JSON) (σ : state)
    (h : ClientSession) (body : JSON) (res : result JSON * state) : Prop :=
  (trace res.2 = trace σ ++ [Posted h (request_of σ body None 25)] ∨
   ∃ r, trace res.2
        = trace σ ++ [Posted h (request_of σ body None 25); Received r]) ∧
  pending res.2 = tail (pending σ) ∧
  (∀ r rest, pending σ = Answers r :: rest → res.1 = decode loads r).

(** ** Sample sessions *)

(** JSON text of the samples, written with ['] where the text has its double
    quote. *)
Definition json_lit (s : string) : str :=
  (λ c, if (c =? 39)%N then 34%N else c) <$> lit s.

Definition LF : str := [10%N].

(** U+2028 LINE SEPARATOR *)
Definition LS : str := [8232%N].

(** A client inside its [async with] block, before its first call. *)
Definition opened (script : list exchange) : state :=
  (__aenter__ (boot (lit "https://host.example/mcp") script)).2.

(** An event stream: a progress event, a broken fragment, the final event
    and a fragment cut off by the end of the stream. *)
Definition sse_reply : reply :=
  {| resp_status := 200;
     resp_headers := [(lit "Content-Type", lit "text/event-stream");
                      (lit "Mcp-Session-Id", lit "sess-1")];
     resp_text :=
       json_lit "data: {'id':1,'type':'progress'}" ++ LF ++ LF
         ++ json_lit "data: {oops" ++ LF ++ LF
         ++ json_lit "data: {'id':1,'result':'done'}" ++ LF ++ LF
         ++ json_lit "data: [1," ++ LF |}.

Definition json_reply : reply :=
  {| resp_status := 200;
     resp_headers := [(lit "Content-Type", lit "application/json")];
     resp_text := json_lit "{'jsonrpc':'2.0','id':2,'result':[]}" |}.

Definition html_reply : reply :=
  {| resp_status := 200;
     resp_headers := [(lit "mcp-session-id", lit "sess-2")];
     resp_text := lit "<html>Bad Gateway</html>" |}.

Definition error_reply : reply :=
  {| resp_status := 500;
     resp_headers := [(lit "mcp-session-id", lit "sess-3")];
     resp_text := json_lit "'internal error'" |}.

(** A JSON string whose text holds line separators, as JSON allows. *)
Definition embedded_reply : reply :=
  {| resp_status := 200;
     resp_headers := [(lit "Content-Type", lit "application/json")];
     resp_text := json_lit "'" ++ LS ++ lit "data:1" ++ LS ++ json_lit "'" |}.

Definition empty_token_reply : reply :=
  {| resp_status := 200;
     resp_headers := [(lit "mcp-session-id", [])];
     resp_text := json_lit "{}" |}.

(** ** The trading flows

    The two module-level coroutines that drive a client. Their console
    output ([log], [print] of [json.dumps]) is left out: writing to the
    console is taken to succeed. The state's [self] is the object they bind
    to [mcp]. *)

Definition MCP_URL : str :=
  lit "https://alpacashit-h3edbzd5hgabh6hs.westeurope-01.azurewebsites.net/mcp".

(** [mcp = MCPHTTPClient(url)] *)
Definition new_client (url : str) : M unit :=
  λ σ, (Return (),
        {| self := __init__ url; trace := trace σ; pending := pending σ |}).

(** [async with mcp: body]. [__aexit__] runs on both ways out of the body;
    it returns [None], so an exception of the body goes on to the caller. *)
Definition async_with {A} (body : M A) : M A :=
  let! _ := __aenter__ in
  λ σ, match body σ with
       | (Return a, σ') => (let! _ := __aexit__ in ret a) σ'
       | (Raise e, σ') => (let! _ := __aexit__ in raise e) σ'
       end.

Section Flows.

Variable json_loads : str → result JSON.

(** Places a stock order through HTTP MCP. *)
Definition execute_trade (symbol : str) (qty : Z) (side : str) : M unit :=
  let! _ := new_client MCP_URL in
  async_with
    (let! _ := initialize json_loads in
     let! result :=
       call_tool json_loads (lit "place_stock_order")
         (JObject [(lit "symbol", JString symbol);
                   (lit "side", JString side);
                   (lit "quantity", JInt qty);
                   (lit "order_type", JString (lit "market"));
                   (lit "time_in_force", JString (lit "day"))]) in
     ret ()).

Definition run_alpaca_executor : M unit :=
  let! _ := new_client MCP_URL in
  async_with
    ((* Step 1: Initialize *)
     let! init := initialize json_loads in
     (* Step 2: List tools *)
     let! tools := list_tools json_loads in
     (* Step 3: Account info *)
     let! account :=
       call_tool json_loads (lit "get_account_info") (JObject []) in
     (* Step 4: Positions *)
     let! positions :=
       call_tool json_loads (lit "get_positions") (JObject []) in
     (* Step 5: Test trade *)
     let! order :=
       call_tool json_loads (lit "place_stock_order")
         (JObject [(lit "symbol", JString (lit "AAPL"));
                   (lit "side", JString (lit "buy"));
                   (lit "quantity", JInt 1);
                   (lit "order_type", JString (lit "market"));
                   (lit "time_in_force", JString (lit "day"))]) in
     ret ()).

End Flows.

(** ** More vocabulary: the wire, the sessions, the plans *)

(** The requests of a stretch of events, in order. *)
Fixpoint posts (evs : list event) : list request :=
  match evs with
  | [] => []
  | Posted _ req :: evs' => req :: posts evs'
  | _ :: evs' => posts evs'
  end.

(** The sessions a stretch of events opens, and those it closes. *)
Fixpoint opened_in (evs : list event) : list ClientSession :=
  match evs with
  | [] => []
  | Opened h :: evs' => h :: opened_in evs'
  | _ :: evs' => opened_in evs'
  end.

Fixpoint closed_in (evs : list event) : list ClientSession :=
  match evs with
  | [] => []
  | Closed h :: evs' => h :: closed_in evs'
  | _ :: evs' => closed_in evs'
  end.

(** Events of session [h]'s traffic only: requests on [h] and replies. *)
Definition wire_event (h : ClientSession) (e : event) : Prop :=
  match e with
  | Posted h' _ => h' = h
  | Received _ => True
  | _ => False
  end.

(** An exchange that ends with a decoded message. *)
Definition succeeds (loads : str → result JSON) (x : exchange) : bool :=
  match x with
  | Answers r =>
      match decode loads r with
      | Return _ => true
      | Raise _ => false
      end
  | Fails _ => false
  end.

(** How many of the coming exchanges succeed before the first that does
    not. *)
Fixpoint successes (loads : str → result JSON) (xs : list exchange) : nat :=
  match xs with
  | x :: xs' => if succeeds loads x then S (successes loads xs') else O
  | [] => O
  end.

Definition initialize_envelope : JSON :=
  encode 1 (lit "initialize")
    (JObject
       [(lit "protocolVersion", JString (lit "2024-11-05"));
        (lit "capabilities", JObject []);
        (lit "clientInfo",
         JObject [(lit "name", JString (lit "azure-http-client"));
                  (lit "version", JString (lit "1.0"))])]).

Definition tool_envelope (name : str) (arguments : JSON) : JSON :=
  encode 3 (lit "tools/call")
    (JObject [(lit "name", JString name); (lit "arguments", arguments)]).

Definition market_order (symbol side : str) (qty : Z) : JSON :=
  JObject [(lit "symbol", JString symbol);
           (lit "side", JString side);
           (lit "quantity", JInt qty);
           (lit "order_type", JString (lit "market"));
           (lit "time_in_force", JString (lit "day"))].

(** The request bodies of [run_alpaca_executor], in order. *)
Definition executor_plan : list JSON :=
  [initialize_envelope;
   encode 2 (lit "tools/list") (JObject []);
   tool_envelope (lit "get_account_info") (JObject []);
   tool_envelope (lit "get_positions") (JObject []);
   tool_envelope (lit "place_stock_order")
     (market_order (lit "AAPL") (lit "buy") 1)].

(** Server-sent events on the wire: each payload on a [data: ] line, each
    line and each event closed by [eol]. *)
Definition sse_frame (eol : str) (payloads : list str) : str :=
  concat ((λ p, lit "data: " ++ p ++ eol ++ eol) <$> payloads).

Definition CRLF : str := [13%N; 10%N].

(** The deepest bracket nesting of a text. *)
Definition nesting (s : str) : nat :=
  (foldl (λ '(depth, deepest) c,
            if mem c [91%N; 123%N] then (S depth, Nat.max deepest (S depth))
            else if mem c [93%N; 125%N] then (pred depth, deepest)
            else (depth, deepest))
         (O, O) s).2.

(** A [json.loads] that gives up with [RecursionError] on texts nested
    deeper than [limit], as the interpreter does at its recursion limit. *)
Definition guarded_loads (limit : nat) (s : str) : result JSON :=
  if (limit <? nesting s)%nat then Raise RecursionError else Reader.loads s.

(** A reply nested four brackets deep. *)
Definition nested_reply : reply :=
  {| resp_status := 200;
     resp_headers := [(lit "mcp-session-id", lit "sess-4")];
     resp_text := lit "[[[[1]]]]" |}.

(** One event whose line is not closed. *)
Definition bare_event_reply : reply :=
  {| resp_status := 200;
     resp_headers := [];
     resp_text := lit "data: 7" |}.

(** Two events framed with CR LF. *)
Definition crlf_reply : reply :=
  {| resp_status := 200;
     resp_headers := [(lit "Content-Type", lit "text/event-stream")];
     resp_text :=
       sse_frame CRLF [json_lit "{'id':1,'type':'progress'}";
                       json_lit "{'id':1,'result':'done'}"] |}.

(** The sessions of a state are in order: handles are given out in the
    order of the trace and once each, no session is closed twice or without
    having been opened, and the session the client holds is open. *)
Definition handles_ok (σ : state) : Prop :=
  (∀ h, h ∈ opened_in (trace σ) → (h < length (trace σ))%nat) ∧
  NoDup (opened_in (trace σ)) ∧
  NoDup (closed_in (trace σ)) ∧
  (∀ h, h ∈ closed_in (trace σ) → h ∈ opened_in (trace σ)) ∧
  (∀ h, http (self σ) = Some h →
        h ∈ opened_in (trace σ) ∧ h ∉ closed_in (trace σ)).

(** A run of calls without extra headers on session [h], made from [σ] and
    ending in [res], that follows [plan]: it sends the plan's bodies in
    order, one more than the number of exchanges that succeed first, each
    request with the token held when it goes out, takes one answer per
    request, and returns exactly when the whole plan went through. *)
Definition flow_ok {A} (loads : str → result JSON) (plan : list JSON)
    (σ : state) (h : ClientSession) (res : result A * state) : Prop :=
  ∃ evs,
    trace res.2 = trace σ ++ evs ∧
    Forall (wire_event h) evs ∧
    req_json <$> posts evs = take (S (successes loads (pending σ))) plan ∧
    pending res.2 = drop (length (posts evs)) (pending σ) ∧
    http (self res.2) = Some h ∧
    session_id (self res.2) = token_after (session_id (self σ)) evs ∧
    echoes (session_id (self σ)) evs ∧
    ((∃ a, res.1 = Return a) ↔
     (length plan ≤ successes loads (pending σ))%nat).

(** ** Lines as they come over the wire *)








(** ** Facts about the string and list primitives *)

(** Two distinct literals differ. *)
Ltac lit_neq :=
  let H := fresh in intros H; vm_compute in H; discriminate H.


Lemma omap_all_None {A B} (f : A → option B) (l : list A) :
  (∀ z, z ∈ l → f z = None) → omap f l = [].
Proof.
  induction l as [|z l IH]; intros H; [done|]. cbn.
  rewrite (H z) by apply list_elem_of_here.
  apply IH. intros w Hw. apply H. by apply list_elem_of_further.
Qed.

Lemma last_omap_split {A B} (f : A → option B) (l1 l2 : list A) (x : A) (y : B) :
  f x = Some y →
  (∀ z, z ∈ l2 → f z = None) →
  last (omap f (l1 ++ x :: l2)) = Some y.
Proof.
  intros Hx Hl2.
  rewrite omap_app. cbn. rewrite Hx.
  rewrite (omap_all_None f l2 Hl2).
  by rewrite last_snoc.
Qed.

(** ** What one [_post] does *)

Section PostFacts.

Variable loads : str → result JSON.

Lemma sse_fold (lines : list str) (acc : list JSON) :
  foldl
    (λ messages line,
       if startswith (lit "data:") line then
         match loads (strip (drop (length (lit "data:")) line)) with
         | Return m => messages ++ [m]
         | Raise _ => messages
         end
       else messages)
    acc lines
  = acc ++ omap (sse_payload loads) lines.
Proof.
  revert acc. induction lines as [|line lines IH]; intros acc.
  - by rewrite app_nil_r.
  - cbn [foldl]. rewrite IH. cbn [omap list_omap]. unfold sse_payload at 2.
    change (length (lit "data:")) with 5%nat.
    destruct (startswith (lit "data:") line); [|done].
    destruct (loads (strip (drop 5 line))); [|done].
    by rewrite <- app_assoc.
Qed.

Lemma _post_answers σ h r rest payload extra timeout :
  http (self σ) = Some h →
  pending σ = Answers r :: rest →
  _post loads payload extra timeout σ =
    (decode loads r,
     with_token (observe (session_id (self σ)) r)
       (with_world
          [Posted h (request_of σ payload extra timeout); Received r]
          rest σ)).
Proof.
  destruct σ as [[url tok ht] tr pe]. cbn [self http pending]. intros -> ->.
  unfold _post, bind, get_self, ClientSession_post, emit, exchange_next.
  cbn [self http pending trace session_id base_url].
  set (hs := match extra with Some _ => _ | None => _ end).
  assert (hs = sent_headers tok extra) as ->.
  { subst hs. unfold sent_headers.
    destruct extra as [m|]; [case_bool_decide as Hm|];
      destruct tok as [[|c s]|]; try reflexivity;
      subst m; by rewrite (left_id_L ∅ (∪)). }
  unfold bind, decode, observe, with_token, with_world, request_of.
  cbn [self http pending trace session_id base_url].
  rewrite <- app_assoc. cbn [app].
  destruct (400 <=? resp_status r); [reflexivity|].
  fold session_key. rewrite sse_fold, app_nil_l.
  destruct (ci_get session_key (resp_headers r)) as [[|c s]|];
    unfold set_session_id, ret, raise;
    cbn [self http pending trace session_id base_url truthy];
    (destruct (last _); [reflexivity|]);
    destruct (loads (resp_text r)) as [v|[]]; reflexivity.
Qed.

Lemma _post_no_session σ payload extra timeout :
  http (self σ) = None →
  _post loads payload extra timeout σ =
    (Raise (AttributeError (lit "'NoneType' object has no attribute 'post'")),
     σ).
Proof.
  intros Hh. unfold _post, bind, get_self, ClientSession_post.
  by rewrite Hh.
Qed.

Lemma _post_unanswered σ h payload extra timeout :
  http (self σ) = Some h →
  match pending σ with
  | Answers _ :: _ => True
  | Fails e :: rest =>
      _post loads payload extra timeout σ =
        (Raise e,
         with_world [Posted h (request_of σ payload extra timeout)] rest σ)
  | [] =>
      _post loads payload extra timeout σ =
        (Raise TimeoutError,
         with_world [Posted h (request_of σ payload extra timeout)] [] σ)
  end.
Proof.
  destruct σ as [[url tok ht] tr pe]. cbn [self http pending]. intros ->.
  destruct pe as [|[r|e] rest]; [|done|];
    unfold _post, bind, get_self, ClientSession_post, emit, exchange_next;
    cbn [self http pending trace session_id base_url];
    (set (hs := match extra with Some _ => _ | None => _ end);
     assert (hs = sent_headers tok extra) as ->;
     [ subst hs; unfold sent_headers;
       destruct extra as [m|]; [case_bool_decide as Hm|];
       destruct tok as [[|c s]|]; try reflexivity;
       subst m; by rewrite (left_id_L ∅ (∪))
     | reflexivity ]).
Qed.

Lemma initialize_eq σ :
  initialize loads σ =
    _post loads
      (encode 1 (lit "initialize")
         (JObject
            [(lit "protocolVersion", JString MCP_VERSION);
             (lit "capabilities", JObject []);
             (lit "clientInfo",
              JObject [(lit "name", JString (lit "azure-http-client"));
                       (lit "version", JString (lit "1.0"))])]))
      None 25 σ.
Proof.
  unfold initialize, bind, ret, encode.
  by destruct (_post _ _ _ _ _) as [[v|e] σ'].
Qed.

Lemma list_tools_eq σ :
  list_tools loads σ =
    _post loads (encode 2 (lit "tools/list") (JObject [])) None 25 σ.
Proof. reflexivity. Qed.

Lemma call_tool_eq name arguments σ :
  call_tool loads name arguments σ =
    _post loads
      (encode 3 (lit "tools/call")
         (JObject [(lit "name", JString name);
                   (lit "arguments", arguments)]))
      None 25 σ.
Proof. reflexivity. Qed.

End PostFacts.

(** ** Request headers *)

Lemma sent_headers_extra tok extra k v :
  extra_get extra k = Some v → sent_headers tok extra !! k = Some v.
Proof.
  destruct extra as [m|]; [|done]. cbn [extra_get]. intros Hk.
  unfold sent_headers. by apply lookup_union_Some_l.
Qed.

Lemma sent_headers_own tok extra k :
  extra_get extra k = None →
  sent_headers tok extra !! k = sent_headers tok None !! k.
Proof.
  destruct extra as [m|]; [|done]. cbn [extra_get]. intros Hk.
  unfold sent_headers. by rewrite lookup_union_r.
Qed.

Lemma sent_headers_token tok :
  tok ≠ Some [] → sent_headers tok None !! session_key = tok.
Proof.
  intros Htok. unfold sent_headers.
  destruct tok as [[|c s]|]; [done| |].
  - by rewrite lookup_insert_eq.
  - rewrite !lookup_insert_ne by lit_neq. apply lookup_empty.
Qed.

Lemma sent_headers_defaults tok :
  sent_headers tok None !! lit "Content-Type" = Some (lit "application/json") ∧
  sent_headers tok None !! lit "Accept"
    = Some (lit "application/json, text/event-stream") ∧
  sent_headers tok None !! lit "mcp-protocol-version" = Some (lit "2024-11-05").
Proof.
  unfold sent_headers, session_key.
  destruct tok as [[|c s]|]; repeat split;
    rewrite ?(lookup_insert_ne _ (lit "mcp-session-id")) by lit_neq;
    try (by rewrite lookup_insert_eq);
    try (rewrite lookup_insert_ne by lit_neq; by rewrite lookup_insert_eq);
    rewrite !lookup_insert_ne by lit_neq; by rewrite lookup_insert_eq.
Qed.

(** ** Traces of a session *)

Lemma token_after_app tok evs1 evs2 :
  token_after tok (evs1 ++ evs2) = token_after (token_after tok evs1) evs2.
Proof.
  revert tok. induction evs1 as [|[| | |r] evs1 IH]; intros tok; cbn; auto.
Qed.

Lemma echoes_app tok evs1 evs2 :
  echoes tok (evs1 ++ evs2) ↔
  echoes tok evs1 ∧ echoes (token_after tok evs1) evs2.
Proof.
  revert tok. induction evs1 as [|[| |h req|r] evs1 IH]; intros tok; cbn;
    rewrite ?IH; tauto.
Qed.

Lemma echoes_at tok evs1 h req evs2 :
  echoes tok (evs1 ++ Posted h req :: evs2) →
  req_headers req !! session_key = token_after tok evs1.
Proof. rewrite echoes_app. cbn. tauto. Qed.

Lemma observe_nonempty tok r : tok ≠ Some [] → observe tok r ≠ Some [].
Proof.
  intros Htok. unfold observe.
  destruct (400 <=? resp_status r); [done|].
  by destruct (ci_get session_key (resp_headers r)) as [[|c s]|].
Qed.

Lemma token_after_nonempty tok evs :
  tok ≠ Some [] → token_after tok evs ≠ Some [].
Proof.
  revert tok. induction evs as [|[| | |r] evs IH]; intros tok Htok; cbn; auto.
  apply IH. by apply observe_nonempty.
Qed.

Section SessionFacts.

Variable loads : str → result JSON.

(** What a [_post] adds to the trace and leaves as the token. *)
Lemma _post_effect σ payload extra timeout :
  ∃ evs,
    trace (_post loads payload extra timeout σ).2 = trace σ ++ evs ∧
    session_id (self (_post loads payload extra timeout σ).2)
      = token_after (session_id (self σ)) evs ∧
    (extra_get extra session_key = None →
     session_id (self σ) ≠ Some [] →
     echoes (session_id (self σ)) evs).
Proof.
  destruct (http (self σ)) as [h|] eqn:Hh.
  - pose proof (_post_unanswered loads σ h payload extra timeout Hh) as Hu.
    assert (extra_get extra session_key = None →
            session_id (self σ) ≠ Some [] →
            req_headers (request_of σ payload extra timeout) !! session_key
              = session_id (self σ)) as Hreq.
    { intros He Htok. cbn [request_of req_headers].
      rewrite sent_headers_own by done. by apply sent_headers_token. }
    destruct (pending σ) as [|[r|e] rest] eqn:Hp.
    + rewrite Hu. exists [Posted h (request_of σ payload extra timeout)].
      cbn. auto.
    + rewrite (_post_answers loads σ h r rest) by done.
      exists [Posted h (request_of σ payload extra timeout); Received r].
      cbn. auto.
    + rewrite Hu. exists [Posted h (request_of σ payload extra timeout)].
      cbn. auto.
  - rewrite _post_no_session by done. exists []. cbn.
    by rewrite app_nil_r.
Qed.

Lemma perform_effect c σ :
  ∃ evs,
    trace (perform loads c σ) = trace σ ++ evs ∧
    session_id (self (perform loads c σ))
      = token_after (session_id (self σ)) evs ∧
    (plain c → session_id (self σ) ≠ Some [] →
     echoes (session_id (self σ)) evs).
Proof.
  destruct c as [| |payload extra timeout| | |name arguments];
    cbn [perform plain].
  - exists [Opened (length (trace σ))]. by cbn.
  - unfold __aexit__, bind, get_self.
    destruct (http (self σ)) as [h|].
    + exists [Closed h]. by cbn.
    + exists []. cbn. by rewrite app_nil_r.
  - apply _post_effect.
  - rewrite initialize_eq.
    destruct (_post_effect σ
      (encode 1 (lit "initialize")
         (JObject
            [(lit "protocolVersion", JString MCP_VERSION);
             (lit "capabilities", JObject []);
             (lit "clientInfo",
              JObject [(lit "name", JString (lit "azure-http-client"));
                       (lit "version", JString (lit "1.0"))])]))
      None 25) as (evs & ? & ? & He).
    exists evs. repeat split; auto.
  - rewrite list_tools_eq.
    destruct (_post_effect σ (encode 2 (lit "tools/list") (JObject []))
                None 25) as (evs & ? & ? & He).
    exists evs. repeat split; auto.
  - rewrite call_tool_eq.
    destruct (_post_effect σ
      (encode 3 (lit "tools/call")
         (JObject [(lit "name", JString name);
                   (lit "arguments", arguments)]))
      None 25) as (evs & ? & ? & He).
    exists evs. repeat split; auto.
Qed.

Lemma run_effect cs σ :
  Forall plain cs →
  session_id (self σ) ≠ Some [] →
  ∃ evs,
    trace (run loads cs σ) = trace σ ++ evs ∧
    session_id (self (run loads cs σ))
      = token_after (session_id (self σ)) evs ∧
    echoes (session_id (self σ)) evs.
Proof.
  revert σ. induction cs as [|c cs IH]; intros σ Hcs Htok.
  - exists []. cbn. by rewrite app_nil_r.
  - apply Forall_cons in Hcs as [Hc Hcs]. cbn [run foldl].
    destruct (perform_effect c σ) as (evs1 & Ht1 & Hs1 & He1).
    destruct (IH (perform loads c σ) Hcs) as (evs2 & Ht2 & Hs2 & He2).
    { rewrite Hs1. by apply token_after_nonempty. }
    exists (evs1 ++ evs2). unfold run in *.
    rewrite Ht2, Ht1, Hs2, Hs1, token_after_app, echoes_app, <- app_assoc.
    rewrite Hs1 in He2. auto.
Qed.

(** The stored token is never the empty string. *)
Lemma run_token_nonempty cs σ :
  session_id (self σ) ≠ Some [] →
  session_id (self (run loads cs σ)) ≠ Some [].
Proof.
  revert σ. induction cs as [|c cs IH]; intros σ Htok; [done|].
  cbn [run foldl]. apply IH.
  destruct (perform_effect c σ) as (evs & _ & -> & _).
  by apply token_after_nonempty.
Qed.

End SessionFacts.

(** ** The response decoder *)

(** C2, as the code has it. For a reply with status below 400 whose body has
    no [data:] line that parses, [_post] parses the whole body as one JSON
    document and returns its value; when that parse fails with a JSON decode
    error, [_post] raises the "unexpected response" error, which carries the
    first 200 characters of the body at most. A body that is valid JSON is
    returned verbatim under the same condition: that none of its lines is a
    [data:] line that parses. *)
Theorem C2_fallback_to_whole_body
    (loads : str → result JSON) σ h r rest payload extra timeout :
  http (self σ) = Some h →
  pending σ = Answers r :: rest →
  resp_status r < 400 →
  (∀ l, l ∈ splitlines (resp_text r) → startswith (lit "data:") l = true →
        ∃ e, loads (strip (drop 5 l)) = Raise e) →
  (∀ v, loads (resp_text r) = Return v →
        (_post loads payload extra timeout σ).1 = Return v) ∧
  (loads (resp_text r) = Raise JSONDecodeError →
   (_post loads payload extra timeout σ).1
   = Raise (RuntimeError
              (lit "Unexpected MCP response: " ++ take 200 (resp_text r)))) ∧
  (length (take 200 (resp_text r)) ≤ 200)%nat ∧
  take 200 (resp_text r) `prefix_of` resp_text r.
Proof.
  intros Hh Hp Hst Hlines.
  rewrite (_post_answers loads σ h r rest) by done. cbn [fst].
  unfold decode. apply Z.leb_gt in Hst. rewrite Hst.
  rewrite omap_all_None.
  - cbn [last]. repeat split.
    + by intros v ->.
    + by intros ->.
    + rewrite length_take. lia.
    + apply prefix_take.
  - intros l Hl. unfold sse_payload.
    destruct (startswith (lit "data:") l) eqn:Hpl; [|done].
    by destruct (Hlines l Hl Hpl) as [e ->].
Qed.

Lemma C2_witness :
  (_post Reader.loads (encode 2 (lit "tools/list") (JObject [])) None 25
     (opened [Answers json_reply])).1
  = Return (JObject [(lit "jsonrpc", JString (lit "2.0"));
                     (lit "id", JInt 2);
                     (lit "result", JArray [])])
  ∧
  (_post Reader.loads (encode 2 (lit "tools/list") (JObject [])) None 25
     (opened [Answers html_reply])).1
  = Raise (RuntimeError
             (lit "Unexpected MCP response: <html>Bad Gateway</html>")).
Proof.
  split.
  - apply (C2_fallback_to_whole_body Reader.loads
             (opened [Answers json_reply]) 0%nat json_reply []
             (encode 2 (lit "tools/list") (JObject [])) None 25).
    + reflexivity.
    + reflexivity.
    + reflexivity.
    + intros l Hl Hpre. vm_compute in Hl.
      apply elem_of_cons in Hl as [->|Hl]; [vm_compute in Hpre; discriminate|].
      by apply elem_of_nil in Hl.
    + vm_compute. reflexivity.
  - apply (C2_fallback_to_whole_body Reader.loads
             (opened [Answers html_reply]) 0%nat html_reply []
             (encode 2 (lit "tools/list") (JObject [])) None 25).
    + reflexivity.
    + reflexivity.
    + reflexivity.
    + intros l Hl Hpre. vm_compute in Hl.
      apply elem_of_cons in Hl as [->|Hl]; [vm_compute in Hpre; discriminate|].
      by apply elem_of_nil in Hl.
    + vm_compute. reflexivity.
Defined.

(** C2, as stated, fails for a valid JSON body one of whose lines is a
    [data:] line that parses: the body below is a JSON string, and [_post]
    returns the number on its middle line. *)
Lemma C2_counterexample :
  resp_status embedded_reply < 400 ∧
  Reader.loads (resp_text embedded_reply)
    = Return (JString (LS ++ lit "data:1" ++ LS)) ∧
  (_post Reader.loads (encode 2 (lit "tools/list") (JObject [])) None 25
     (opened [Answers embedded_reply])).1 = Return (JInt 1) ∧
  (_post Reader.loads (encode 2 (lit "tools/list") (JObject [])) None 25
     (opened [Answers embedded_reply])).1
    ≠ Reader.loads (resp_text embedded_reply).
Proof.
  repeat split; try (vm_compute; reflexivity).
  vm_compute. discriminate.
Qed.

(** C3. For a reply with status 400 or above, [_post] raises the error that
    carries the status code and the first 300 characters of the body at
    most, whatever the body is; [json.loads] has no part in the outcome. *)
Theorem C3_error_status
    (loads : str → result JSON) σ h r rest payload extra timeout :
  http (self σ) = Some h →
  pending σ = Answers r :: rest →
  400 ≤ resp_status r →
  (_post loads payload extra timeout σ).1
    = Raise (RuntimeError
               (lit "MCP HTTP " ++ str_of_int (resp_status r) ++ lit ": "
                  ++ take 300 (resp_text r))) ∧
  (length (take 300 (resp_text r)) ≤ 300)%nat ∧
  take 300 (resp_text r) `prefix_of` resp_text r ∧
  ∀ loads' : str → result JSON,
    _post loads' payload extra timeout σ = _post loads payload extra timeout σ.
Proof.
  intros Hh Hp Hst. apply Z.leb_le in Hst.
  repeat split.
  - rewrite (_post_answers loads σ h r rest) by done. cbn [fst].
    unfold decode. by rewrite Hst.
  - rewrite length_take. lia.
  - apply prefix_take.
  - intros loads'.
    rewrite (_post_answers loads σ h r rest), (_post_answers loads' σ h r rest)
      by done.
    unfold decode. by rewrite Hst.
Qed.

Lemma C3_witness :
  (_post Reader.loads (encode 2 (lit "tools/list") (JObject [])) None 25
     (opened [Answers error_reply])).1
  = Raise (RuntimeError (json_lit "MCP HTTP 500: 'internal error'")).
Proof.
  apply (C3_error_status Reader.loads (opened [Answers error_reply]) 0%nat
           error_reply [] (encode 2 (lit "tools/list") (JObject [])) None 25).
  - reflexivity.
  - reflexivity.
  - vm_compute. discriminate.
Defined.

(** ** One call, one exchange *)

(** A [_post] on an open session sends exactly one request, takes at most
    one answer from the network and decodes it. *)
Lemma _post_one_exchange
    (loads : str → result JSON) σ h payload extra timeout :
  http (self σ) = Some h →
  (trace (_post loads payload extra timeout σ).2
     = trace σ ++ [Posted h (request_of σ payload extra timeout)] ∨
   ∃ r, trace (_post loads payload extra timeout σ).2
        = trace σ ++ [Posted h (request_of σ payload extra timeout);
                      Received r]) ∧
  pending (_post loads payload extra timeout σ).2 = tail (pending σ) ∧
  http (self (_post loads payload extra timeout σ).2) = Some h ∧
  ∀ r rest, pending σ = Answers r :: rest →
            (_post loads payload extra timeout σ).1 = decode loads r.
Proof.
  intros Hh.
  pose proof (_post_unanswered loads σ h payload extra timeout Hh) as Hu.
  destruct (pending σ) as [|[r|e] rest] eqn:Hp.
  - rewrite Hu. cbn. repeat split; auto. congruence.
  - rewrite (_post_answers loads σ h r rest) by done. cbn.
    repeat split; eauto. congruence.
  - rewrite Hu. cbn. repeat split; auto. congruence.
Qed.

Lemma _post_sends (loads : str → result JSON) σ h payload extra timeout :
  http (self σ) = Some h →
  ∃ tail,
    trace (_post loads payload extra timeout σ).2
    = trace σ ++ Posted h (request_of σ payload extra timeout) :: tail.
Proof.
  intros Hh.
  destruct (_post_one_exchange loads σ h payload extra timeout Hh)
    as ([Ht|[r Ht]] & _); rewrite Ht; eauto.
Qed.

(** ** The session token *)

(** C4, as the code has it. Over any sequence of calls on one session that
    leave the session-token header to the client, the stored token is the
    one last accepted, and every outgoing request carries it: the non-empty
    session-token header value of the latest earlier reply with status
    below 400 that had one. A reply without a session-token header leaves
    the stored token unchanged. *)
Theorem C4_token_echo (loads : str → result JSON) cs σ :
  Forall plain cs →
  session_id (self σ) ≠ Some [] →
  (∀ evs, trace (run loads cs σ) = trace σ ++ evs →
          session_id (self (run loads cs σ))
          = token_after (session_id (self σ)) evs) ∧
  (∀ evs1 h req evs2,
     trace (run loads cs σ) = trace σ ++ evs1 ++ Posted h req :: evs2 →
     req_headers req !! session_key
     = token_after (session_id (self σ)) evs1) ∧
  (∀ σ' h r rest payload extra timeout,
     http (self σ') = Some h →
     pending σ' = Answers r :: rest →
     ci_get session_key (resp_headers r) = None →
     session_id (self (_post loads payload extra timeout σ').2)
     = session_id (self σ')).
Proof.
  intros Hcs Htok.
  destruct (run_effect loads cs σ Hcs Htok) as (evs & Ht & Hs & He).
  repeat split.
  - intros evs' Ht'. rewrite Ht in Ht'. by apply app_inv_head in Ht' as <-.
  - intros evs1 h req evs2 Ht'. rewrite Ht in Ht'.
    apply app_inv_head in Ht' as ->. by apply echoes_at in He.
  - intros σ' h r rest payload extra timeout Hh Hp Hget.
    rewrite (_post_answers loads σ' h r rest) by done.
    cbn. unfold observe. rewrite Hget. by destruct (400 <=? resp_status r).
Qed.

Lemma C4_witness :
  req_headers
    (request_of
       (with_token (Some (lit "sess-1")) (opened []))
       (encode 2 (lit "tools/list") (JObject [])) None 25)
    !! session_key
  = Some (lit "sess-1").
Proof.
  pose proof
    (C4_token_echo Reader.loads [Initialize; ListTools; ListTools]
       (opened [Answers sse_reply; Answers error_reply; Answers json_reply]))
    as H.
  destruct H as (_ & H & _).
  - repeat constructor.
  - vm_compute. discriminate.
  - apply (H [Posted 0%nat
                (request_of (opened [])
                   (encode 1 (lit "initialize")
                      (JObject
                         [(lit "protocolVersion", JString MCP_VERSION);
                          (lit "capabilities", JObject []);
                          (lit "clientInfo",
                           JObject
                             [(lit "name", JString (lit "azure-http-client"));
                              (lit "version", JString (lit "1.0"))])]))
                   None 25);
              Received sse_reply;
              Posted 0%nat
                (request_of (with_token (Some (lit "sess-1")) (opened []))
                   (encode 2 (lit "tools/list") (JObject [])) None 25);
              Received error_reply]
             0%nat _ [Received json_reply]).
    vm_compute. reflexivity.
Defined.

(** C4, as stated, fails when the reply that carries the token has status
    400 or above: the second request below goes out without any
    session-token header although the first reply carried one. *)
Lemma C4_counterexample :
  trace (run Reader.loads [ListTools; ListTools]
           (opened [Answers error_reply; Answers json_reply]))
  = [Opened 0%nat;
     Posted 0%nat
       (request_of (opened []) (encode 2 (lit "tools/list") (JObject []))
          None 25);
     Received error_reply;
     Posted 0%nat
       (request_of (opened []) (encode 2 (lit "tools/list") (JObject []))
          None 25);
     Received json_reply] ∧
  ci_get session_key (resp_headers error_reply) = Some (lit "sess-3") ∧
  req_headers
    (request_of (opened []) (encode 2 (lit "tools/list") (JObject []))
       None 25) !! session_key = None.
Proof. repeat split; vm_compute; reflexivity. Qed.

(** C5, as the code has it. On a send whose reply has status below 400 and
    carries a non-empty session-token header, the stored token becomes that
    header's value and the requests that follow carry it. A reply with
    status 400 or above does not touch the stored token. *)
Theorem C5_token_stored
    (loads : str → result JSON) σ h r rest payload extra timeout :
  http (self σ) = Some h →
  pending σ = Answers r :: rest →
  (∀ sid, resp_status r < 400 →
          ci_get session_key (resp_headers r) = Some sid →
          sid ≠ [] →
          session_id (self (_post loads payload extra timeout σ).2)
          = Some sid ∧
          ∀ payload' extra' timeout',
            extra_get extra' session_key = None →
            ∃ req tail,
              trace (_post loads payload' extra' timeout'
                       (_post loads payload extra timeout σ).2).2
              = trace (_post loads payload extra timeout σ).2
                  ++ Posted h req :: tail ∧
              req_headers req !! session_key = Some sid) ∧
  (400 ≤ resp_status r →
   session_id (self (_post loads payload extra timeout σ).2)
   = session_id (self σ)).
Proof.
  intros Hh Hp. split.
  - intros sid Hst Hget Hsid. apply Z.leb_gt in Hst.
    assert (session_id (self (_post loads payload extra timeout σ).2)
            = Some sid) as Hs.
    { rewrite (_post_answers loads σ h r rest) by done.
      cbn. unfold observe. rewrite Hst, Hget. by destruct sid. }
    split; [done|].
    intros payload' extra' timeout' He.
    destruct (_post_one_exchange loads σ h payload extra timeout Hh)
      as (_ & _ & Hh' & _).
    destruct (_post_sends loads _ h payload' extra' timeout' Hh') as [tail Ht].
    eexists _, tail. split; [exact Ht|].
    cbn [request_of req_headers]. rewrite sent_headers_own by done.
    rewrite Hs. apply sent_headers_token. by intros [= ->].
  - intros Hst. apply Z.leb_le in Hst.
    rewrite (_post_answers loads σ h r rest) by done.
    cbn. unfold observe. by rewrite Hst.
Qed.

Lemma C5_witness :
  session_id
    (self (_post Reader.loads (encode 2 (lit "tools/list") (JObject []))
             None 25 (opened [Answers sse_reply])).2)
  = Some (lit "sess-1").
Proof.
  apply (C5_token_stored Reader.loads (opened [Answers sse_reply]) 0%nat
           sse_reply [] (encode 2 (lit "tools/list") (JObject [])) None 25).
  - reflexivity.
  - reflexivity.
  - reflexivity.
  - vm_compute. reflexivity.
  - vm_compute. discriminate.
Defined.

(** C5, as stated, fails for a reply with status 400 or above: its
    session-token header is not stored. *)
Lemma C5_counterexample :
  400 ≤ resp_status error_reply ∧
  ci_get session_key (resp_headers error_reply) = Some (lit "sess-3") ∧
  session_id
    (self (_post Reader.loads (encode 2 (lit "tools/list") (JObject []))
             None 25 (opened [Answers error_reply])).2)
  = None.
Proof.
  repeat split; try (vm_compute; reflexivity).
  vm_compute. discriminate.
Qed.

(** ** Outgoing requests *)

(** C6. The request of a [_post] goes to the client's URL with the payload
    as its JSON body; every entry of the extra headers is in its headers,
    and each of [Content-Type], [Accept] and [mcp-protocol-version] that the
    extra headers do not set has its default: [application/json],
    [application/json, text/event-stream] and [2024-11-05]. *)
Theorem C6_request_headers
    (loads : str → result JSON) σ h payload extra timeout :
  http (self σ) = Some h →
  ∃ req tail,
    trace (_post loads payload extra timeout σ).2
    = trace σ ++ Posted h req :: tail ∧
    req_url req = base_url (self σ) ∧
    req_json req = payload ∧
    req_timeout req = timeout ∧
    (∀ k v, extra_get extra k = Some v → req_headers req !! k = Some v) ∧
    (extra_get extra (lit "Content-Type") = None →
     req_headers req !! lit "Content-Type" = Some (lit "application/json")) ∧
    (extra_get extra (lit "Accept") = None →
     req_headers req !! lit "Accept"
     = Some (lit "application/json, text/event-stream")) ∧
    (extra_get extra (lit "mcp-protocol-version") = None →
     req_headers req !! lit "mcp-protocol-version"
     = Some (lit "2024-11-05")).
Proof.
  intros Hh.
  destruct (_post_sends loads σ h payload extra timeout Hh) as [tail Ht].
  exists (request_of σ payload extra timeout), tail.
  destruct (sent_headers_defaults (session_id (self σ))) as (Hc & Ha & Hv).
  cbn [request_of req_url req_json req_timeout req_headers].
  repeat split; try done.
  - intros k v. apply sent_headers_extra.
  - intros He. by rewrite sent_headers_own.
  - intros He. by rewrite sent_headers_own.
  - intros He. by rewrite sent_headers_own.
Qed.

Lemma C6_witness :
  ∃ req tail,
    trace (_post Reader.loads (encode 2 (lit "tools/list") (JObject []))
             (Some {[ lit "Accept" := lit "text/event-stream";
                      lit "X-Trace" := lit "1" ]}) 25
             (opened [Answers json_reply])).2
    = trace (opened [Answers json_reply]) ++ Posted 0%nat req :: tail ∧
    req_headers req !! lit "Accept" = Some (lit "text/event-stream") ∧
    req_headers req !! lit "X-Trace" = Some (lit "1") ∧
    req_headers req !! lit "Content-Type" = Some (lit "application/json") ∧
    req_headers req !! lit "mcp-protocol-version" = Some (lit "2024-11-05").
Proof.
  destruct (C6_request_headers Reader.loads (opened [Answers json_reply])
              0%nat (encode 2 (lit "tools/list") (JObject []))
              (Some {[ lit "Accept" := lit "text/event-stream";
                       lit "X-Trace" := lit "1" ]}) 25)
    as (req & tail & Ht & _ & _ & _ & Hx & Hc & _ & Hv).
  - reflexivity.
  - exists req, tail. split; [exact Ht|]. repeat split.
    + apply Hx. vm_compute. reflexivity.
    + apply Hx. vm_compute. reflexivity.
    + apply Hc. vm_compute. reflexivity.
    + apply Hv. vm_compute. reflexivity.
Defined.

(** C7. Each wrapper is one [_post] of its envelope, without extra headers:
    [initialize] sends method [initialize] with the protocol version, empty
    capabilities and the client's info, [list_tools] sends [tools/list] with
    empty params, [call_tool] sends [tools/call] with the name and the
    arguments. On an open session the call puts exactly one request on the
    wire, takes one answer at most and returns what the decoder makes of
    it. *)
Theorem C7_wrappers (loads : str → result JSON) σ h name arguments :
  http (self σ) = Some h →
  one_exchange loads σ h
    (encode 1 (lit "initialize")
       (JObject
          [(lit "protocolVersion", JString (lit "2024-11-05"));
           (lit "capabilities", JObject []);
           (lit "clientInfo",
            JObject [(lit "name", JString (lit "azure-http-client"));
                     (lit "version", JString (lit "1.0"))])]))
    (initialize loads σ) ∧
  one_exchange loads σ h
    (encode 2 (lit "tools/list") (JObject []))
    (list_tools loads σ) ∧
  one_exchange loads σ h
    (encode 3 (lit "tools/call")
       (JObject [(lit "name", JString name); (lit "arguments", arguments)]))
    (call_tool loads name arguments σ).
Proof.
  intros Hh. unfold one_exchange.
  rewrite initialize_eq, list_tools_eq, call_tool_eq.
  repeat split;
    try (by apply (_post_one_exchange loads σ h _ None 25 Hh)).
Qed.

Lemma C7_witness :
  trace (call_tool Reader.loads (lit "get_positions") (JObject [])
           (opened [Answers json_reply])).2
  = [Opened 0%nat;
     Posted 0%nat
       {| req_url := lit "https://host.example/mcp";
          req_json :=
            JObject
              [(lit "jsonrpc", JString (lit "2.0"));
               (lit "id", JInt 3);
               (lit "method", JString (lit "tools/call"));
               (lit "params",
                JObject [(lit "name", JString (lit "get_positions"));
                         (lit "arguments", JObject [])])];
          req_headers :=
            {[ lit "Content-Type" := lit "application/json";
               lit "Accept" := lit "application/json, text/event-stream";
               lit "mcp-protocol-version" := lit "2024-11-05" ]};
          req_timeout := 25 |};
     Received json_reply] ∧
  (call_tool Reader.loads (lit "get_positions") (JObject [])
     (opened [Answers json_reply])).1
  = Return (JObject [(lit "jsonrpc", JString (lit "2.0"));
                     (lit "id", JInt 2);
                     (lit "result", JArray [])]).
Proof.
  destruct (C7_wrappers Reader.loads (opened [Answers json_reply]) 0%nat
              (lit "get_positions") (JObject []))
    as (_ & _ & Ht & _ & Hres).
  - reflexivity.
  - split.
    + destruct Ht as [Ht|[r Ht]]; rewrite Ht.
      * vm_compute in Ht. discriminate Ht.
      * vm_compute in Ht. injection Ht as <-. vm_compute. reflexivity.
    + rewrite (Hres json_reply []) by reflexivity. vm_compute. reflexivity.
Defined.

(** ** Failures and the token *)

(** C8. When [_post] fails with the "unexpected response" error (status
    below 400, no [data:] line that parses, the whole body not JSON), a
    token that came in the reply's session-token header has been stored by
    then; when it fails because the status is 400 or above, the stored token
    is as it was, whatever the reply's headers are. *)
Theorem C8_token_on_failure
    (loads : str → result JSON) σ h r rest payload extra timeout :
  http (self σ) = Some h →
  pending σ = Answers r :: rest →
  (resp_status r < 400 →
   (∀ l, l ∈ splitlines (resp_text r) → startswith (lit "data:") l = true →
         ∃ e, loads (strip (drop 5 l)) = Raise e) →
   loads (resp_text r) = Raise JSONDecodeError →
   (_post loads payload extra timeout σ).1
   = Raise (RuntimeError
              (lit "Unexpected MCP response: " ++ take 200 (resp_text r))) ∧
   ∀ sid, ci_get session_key (resp_headers r) = Some sid → sid ≠ [] →
          session_id (self (_post loads payload extra timeout σ).2)
          = Some sid) ∧
  (400 ≤ resp_status r →
   (_post loads payload extra timeout σ).1
   = Raise (RuntimeError
              (lit "MCP HTTP " ++ str_of_int (resp_status r) ++ lit ": "
                 ++ take 300 (resp_text r))) ∧
   session_id (self (_post loads payload extra timeout σ).2)
   = session_id (self σ)).
Proof.
  intros Hh Hp.
  rewrite (_post_answers loads σ h r rest) by done. cbn.
  unfold decode, observe. split.
  - intros Hst Hlines Hbody. apply Z.leb_gt in Hst. rewrite Hst.
    rewrite omap_all_None.
    + cbn [last]. rewrite Hbody. split; [done|].
      intros sid -> Hsid. by destruct sid.
    + intros l Hl. unfold sse_payload.
      destruct (startswith (lit "data:") l) eqn:Hpl; [|done].
      by destruct (Hlines l Hl Hpl) as [e ->].
  - intros Hst. apply Z.leb_le in Hst. by rewrite Hst.
Qed.

Lemma C8_witness :
  ((_post Reader.loads (encode 2 (lit "tools/list") (JObject [])) None 25
      (opened [Answers html_reply])).1
   = Raise (RuntimeError
              (lit "Unexpected MCP response: <html>Bad Gateway</html>")) ∧
   session_id
     (self (_post Reader.loads (encode 2 (lit "tools/list") (JObject []))
              None 25 (opened [Answers html_reply])).2)
   = Some (lit "sess-2")) ∧
  ((_post Reader.loads (encode 2 (lit "tools/list") (JObject [])) None 25
      (opened [Answers error_reply])).1
   = Raise (RuntimeError (json_lit "MCP HTTP 500: 'internal error'")) ∧
   session_id
     (self (_post Reader.loads (encode 2 (lit "tools/list") (JObject []))
              None 25 (opened [Answers error_reply])).2)
   = None).
Proof.
  split.
  - destruct (C8_token_on_failure Reader.loads (opened [Answers html_reply])
                0%nat html_reply []
                (encode 2 (lit "tools/list") (JObject [])) None 25
                eq_refl eq_refl) as [H _].
    destruct H as [Hres Htok].
    + reflexivity.
    + intros l Hl Hpre. vm_compute in Hl.
      apply elem_of_cons in Hl as [->|Hl]; [vm_compute in Hpre; discriminate|].
      by apply elem_of_nil in Hl.
    + vm_compute. reflexivity.
    + split; [exact Hres|]. apply Htok.
      * vm_compute. reflexivity.
      * vm_compute. discriminate.
  - destruct (C8_token_on_failure Reader.loads (opened [Answers error_reply])
                0%nat error_reply []
                (encode 2 (lit "tools/list") (JObject [])) None 25
                eq_refl eq_refl) as [_ H].
    apply H. vm_compute. discriminate.
Defined.

(** C9. The stored token is absent or a non-empty string in every state a
    session reaches; a reply whose session-token header is the empty string
    leaves the stored token as it was; with an absent or empty token the
    client attaches no session-token header of its own to a request. *)
Theorem C9_token_never_empty (loads : str → result JSON) :
  (∀ url script cs,
     session_id (self (run loads cs (boot url script))) ≠ Some []) ∧
  (∀ σ h r rest payload extra timeout,
     http (self σ) = Some h →
     pending σ = Answers r :: rest →
     ci_get session_key (resp_headers r) = Some [] →
     session_id (self (_post loads payload extra timeout σ).2)
     = session_id (self σ)) ∧
  (∀ σ h payload extra timeout,
     http (self σ) = Some h →
     session_id (self σ) = None ∨ session_id (self σ) = Some [] →
     ∃ req tail,
       trace (_post loads payload extra timeout σ).2
       = trace σ ++ Posted h req :: tail ∧
       req_headers req !! session_key = extra_get extra session_key).
Proof.
  repeat split.
  - intros url script cs. by apply run_token_nonempty.
  - intros σ h r rest payload extra timeout Hh Hp Hget.
    rewrite (_post_answers loads σ h r rest) by done.
    cbn. unfold observe. rewrite Hget. by destruct (400 <=? resp_status r).
  - intros σ h payload extra timeout Hh Htok.
    destruct (_post_sends loads σ h payload extra timeout Hh) as [tail Ht].
    exists (request_of σ payload extra timeout), tail. split; [done|].
    cbn [request_of req_headers].
    destruct (extra_get extra session_key) as [v|] eqn:He.
    + by apply sent_headers_extra.
    + rewrite sent_headers_own by done. unfold sent_headers.
      destruct Htok as [-> | ->];
        rewrite !lookup_insert_ne by lit_neq; apply lookup_empty.
Qed.

Lemma C9_witness :
  session_id
    (self (_post Reader.loads (encode 2 (lit "tools/list") (JObject []))
             None 25
             (with_token (Some (lit "sess-1"))
                (opened [Answers empty_token_reply]))).2)
  = Some (lit "sess-1") ∧
  ∃ req tail,
    trace (_post Reader.loads (encode 2 (lit "tools/list") (JObject []))
             None 25 (opened [])).2
    = trace (opened []) ++ Posted 0%nat req :: tail ∧
    req_headers req !! session_key = None.
Proof.
  destruct (C9_token_never_empty Reader.loads) as (_ & Hkeep & Hbare).
  split.
  - apply (Hkeep (with_token (Some (lit "sess-1"))
                    (opened [Answers empty_token_reply]))
             0%nat empty_token_reply []).
    + reflexivity.
    + reflexivity.
    + vm_compute. reflexivity.
  - apply (Hbare (opened []) 0%nat
             (encode 2 (lit "tools/list") (JObject [])) None 25).
    + reflexivity.
    + left. reflexivity.
Defined.

(** ** Releasing the connection *)

(** C10. [__aexit__] never fails; it closes the session the client holds,
    if it holds one, and clears the handle, so that a second [__aexit__]
    changes nothing; on a client that holds no session, one that was never
    entered included, it does nothing at all. *)
Theorem C10_release_idempotent σ :
  (__aexit__ σ).1 = Return () ∧
  http (self (__aexit__ σ).2) = None ∧
  trace (__aexit__ σ).2
    = trace σ ++ match http (self σ) with
                 | Some h => [Closed h]
                 | None => []
                 end ∧
  __aexit__ (__aexit__ σ).2 = (Return (), (__aexit__ σ).2) ∧
  (http (self σ) = None → __aexit__ σ = (Return (), σ)) ∧
  (∀ url script,
     __aexit__ (boot url script) = (Return (), boot url script)).
Proof.
  unfold __aexit__, bind, get_self, boot.
  destruct σ as [[url tok [h|]] tr pe]; cbn; rewrite ?app_nil_r;
    repeat split; done.
Qed.

Lemma C10_witness :
  __aexit__ (boot (lit "https://host.example/mcp") [])
  = (Return (), boot (lit "https://host.example/mcp") []).
Proof.
  destruct (C10_release_idempotent (boot (lit "https://host.example/mcp") []))
    as (_ & _ & _ & _ & H & _).
  apply H. reflexivity.
Defined.

(** ** Beyond the claims: what a [_post] leaves alone *)

Lemma _post_wire_only (loads : str → result JSON) σ payload extra timeout :
  http (self (_post loads payload extra timeout σ).2) = http (self σ) ∧
  ∃ evs,
    trace (_post loads payload extra timeout σ).2 = trace σ ++ evs ∧
    opened_in evs = [] ∧ closed_in evs = [].
Proof.
  destruct (http (self σ)) as [h|] eqn:Hh.
  - destruct (_post_one_exchange loads σ h payload extra timeout Hh)
      as (Hev & _ & Hh' & _).
    split; [done|].
    destruct Hev as [Hev|[r Hev]]; rewrite Hev; eauto.
  - rewrite _post_no_session by done. split; [done|].
    exists []. by rewrite app_nil_r.
Qed.

(** X1. A [_post] never opens or closes a session and never changes the
    client's URL or its session handle: whatever the call and the network
    do, it adds only traffic to the trace, one request at most, and it takes
    the next answer off the network exactly when the client holds a
    session. *)
Theorem _post_frame (loads : str → result JSON) σ payload extra timeout :
  base_url (self (_post loads payload extra timeout σ).2) = base_url (self σ) ∧
  http (self (_post loads payload extra timeout σ).2) = http (self σ) ∧
  (∃ evs,
     trace (_post loads payload extra timeout σ).2 = trace σ ++ evs ∧
     opened_in evs = [] ∧ closed_in evs = [] ∧
     (length (posts evs) ≤ 1)%nat) ∧
  pending (_post loads payload extra timeout σ).2
  = match http (self σ) with
    | Some _ => tail (pending σ)
    | None => pending σ
    end.
Proof.
  destruct (http (self σ)) as [h|] eqn:Hh.
  - pose proof (_post_unanswered loads σ h payload extra timeout Hh) as Hu.
    destruct (pending σ) as [|[r|e] rest] eqn:Hp.
    + rewrite Hu. cbn. repeat split; eauto.
    + rewrite (_post_answers loads σ h r rest) by done. cbn.
      repeat split; eauto.
    + rewrite Hu. cbn. repeat split; eauto.
  - rewrite _post_no_session by done. cbn.
    split; [done|]. split; [done|]. split; [|done].
    exists []. rewrite app_nil_r. cbn. repeat split; lia.
Qed.

(** X2. On a client that holds no session nothing reaches the wire: the
    three wrappers raise [AttributeError], and any sequence of calls other
    than [__aenter__] leaves the client, the trace and the network as they
    were. *)
Theorem no_session_nothing_sent (loads : str → result JSON) σ cs :
  http (self σ) = None →
  Forall (λ c, c ≠ Enter) cs →
  run loads cs σ = σ ∧
  ∀ name arguments,
    initialize loads σ
    = (Raise (AttributeError
                (lit "'NoneType' object has no attribute 'post'")), σ) ∧
    list_tools loads σ
    = (Raise (AttributeError
                (lit "'NoneType' object has no attribute 'post'")), σ) ∧
    call_tool loads name arguments σ
    = (Raise (AttributeError
                (lit "'NoneType' object has no attribute 'post'")), σ).
Proof.
  intros Hh Hcs.
  assert (∀ name arguments,
    initialize loads σ
    = (Raise (AttributeError
                (lit "'NoneType' object has no attribute 'post'")), σ) ∧
    list_tools loads σ
    = (Raise (AttributeError
                (lit "'NoneType' object has no attribute 'post'")), σ) ∧
    call_tool loads name arguments σ
    = (Raise (AttributeError
                (lit "'NoneType' object has no attribute 'post'")), σ))
    as Hw.
  { intros name arguments.
    rewrite initialize_eq, list_tools_eq, call_tool_eq.
    by rewrite !_post_no_session. }
  split; [|exact Hw].
  induction Hcs as [|c cs Hc _ IH]; [done|].
  cbn [run foldl] in *.
  assert (perform loads c σ = σ) as ->; [|exact IH].
  destruct c as [| |payload extra timeout| | |name arguments];
    cbn [perform].
  - done.
  - unfold __aexit__, bind, get_self. by rewrite Hh.
  - by rewrite _post_no_session.
  - by rewrite (proj1 (Hw [] JNull)).
  - by rewrite (proj1 (proj2 (Hw [] JNull))).
  - by rewrite (proj2 (proj2 (Hw name arguments))).
Qed.

Lemma no_session_nothing_sent_witness :
  run Reader.loads
    [Initialize; ListTools; Exit;
     CallTool (lit "get_positions") (JObject [])]
    (boot MCP_URL [Answers json_reply])
  = boot MCP_URL [Answers json_reply].
Proof.
  apply (no_session_nothing_sent Reader.loads
           (boot MCP_URL [Answers json_reply])).
  - reflexivity.
  - repeat constructor; discriminate.
Defined.

(** X3. When the exchange itself fails (the transport raises, or no answer
    comes before the timeout), [_post] passes that exception on as it is;
    the request has gone out once, and the client object, its token and its
    session handle included, is as before. *)
Theorem transport_failure_keeps_client
    (loads : str → result JSON) σ h payload extra timeout :
  http (self σ) = Some h →
  (∀ r rest, pending σ ≠ Answers r :: rest) →
  (_post loads payload extra timeout σ).1
  = Raise (match pending σ with
           | Fails e :: _ => e
           | _ => TimeoutError
           end) ∧
  self (_post loads payload extra timeout σ).2 = self σ ∧
  trace (_post loads payload extra timeout σ).2
  = trace σ ++ [Posted h (request_of σ payload extra timeout)] ∧
  pending (_post loads payload extra timeout σ).2 = tail (pending σ).
Proof.
  intros Hh Hp.
  pose proof (_post_unanswered loads σ h payload extra timeout Hh) as Hu.
  destruct (pending σ) as [|[r|e] rest].
  - by rewrite Hu.
  - by destruct (Hp r rest).
  - by rewrite Hu.
Qed.

Lemma transport_failure_keeps_client_witness :
  (_post Reader.loads (encode 2 (lit "tools/list") (JObject [])) None 25
     (opened [Fails (ClientError (lit "Cannot connect to host"))])).1
  = Raise (ClientError (lit "Cannot connect to host")) ∧
  self (_post Reader.loads (encode 2 (lit "tools/list") (JObject [])) None 25
          (opened [Fails (ClientError (lit "Cannot connect to host"))])).2
  = self (opened []).
Proof.
  destruct (transport_failure_keeps_client Reader.loads
              (opened [Fails (ClientError (lit "Cannot connect to host"))])
              0%nat (encode 2 (lit "tools/list") (JObject [])) None 25)
    as (Hres & Hself & _).
  - reflexivity.
  - intros r rest. discriminate.
  - split; [exact Hres | exact Hself].
Defined.

(** X4. The fallback names [json.JSONDecodeError] only: when the reply has
    status below 400 and no [data:] line that parses, any other exception
    of the whole-body parse leaves [_post] as it is, unwrapped, while the
    same exception on a [data:] line is swallowed; the reply's token has
    been stored by then. *)
Theorem fallback_passes_other_exceptions
    (loads : str → result JSON) σ h r rest payload extra timeout e :
  http (self σ) = Some h →
  pending σ = Answers r :: rest →
  resp_status r < 400 →
  (∀ l, l ∈ splitlines (resp_text r) → startswith (lit "data:") l = true →
        ∃ e', loads (strip (drop 5 l)) = Raise e') →
  loads (resp_text r) = Raise e →
  e ≠ JSONDecodeError →
  (_post loads payload extra timeout σ).1 = Raise e ∧
  session_id (self (_post loads payload extra timeout σ).2)
  = observe (session_id (self σ)) r.
Proof.
  intros Hh Hp Hst Hlines Hbody He.
  rewrite (_post_answers loads σ h r rest) by done. cbn.
  split; [|done].
  unfold decode. apply Z.leb_gt in Hst. rewrite Hst.
  rewrite omap_all_None.
  - cbn [last]. rewrite Hbody. by destruct e.
  - intros l Hl. unfold sse_payload.
    destruct (startswith (lit "data:") l) eqn:Hpl; [|done].
    by destruct (Hlines l Hl Hpl) as [e' ->].
Qed.

Lemma fallback_passes_other_exceptions_witness :
  (_post (guarded_loads 3) (encode 2 (lit "tools/list") (JObject [])) None 25
     (opened [Answers nested_reply])).1 = Raise RecursionError ∧
  session_id
    (self (_post (guarded_loads 3) (encode 2 (lit "tools/list") (JObject []))
             None 25 (opened [Answers nested_reply])).2)
  = Some (lit "sess-4").
Proof.
  apply (fallback_passes_other_exceptions (guarded_loads 3)
           (opened [Answers nested_reply]) 0%nat nested_reply []
           (encode 2 (lit "tools/list") (JObject [])) None 25 RecursionError).
  - reflexivity.
  - reflexivity.
  - reflexivity.
  - intros l Hl Hpre. vm_compute in Hl.
    apply elem_of_cons in Hl as [->|Hl]; [vm_compute in Hpre; discriminate|].
    by apply elem_of_nil in Hl.
  - vm_compute. reflexivity.
  - discriminate.
Defined.

(** ** Beyond the claims: lines and frames *)

Lemma rev_nonempty {A} (x : A) (l : list A) : ∃ y l', rev (x :: l) ++ [] = y :: l'.
Proof.
  rewrite app_nil_r. cbn [rev]. destruct (rev l) as [|y l']; cbn; eauto.
Qed.

(** A text without line boundaries is one line, and no line when empty. *)
Lemma splitlines_from_plain (cur s : str) :
  Forall (λ c, is_linebreak c = false) s →
  splitlines_from cur s
  = match rev cur ++ s with
    | [] => []
    | l => [l]
    end.
Proof.
  intros Hs. revert cur. induction Hs as [|c s Hc _ IH]; intros cur.
  - cbn [splitlines_from]. destruct cur as [|x cur]; [done|].
    destruct (rev_nonempty x cur) as (y & l' & Hr). rewrite Hr.
    rewrite <- Hr, app_nil_r. done.
  - cbn [splitlines_from]. rewrite Hc, IH. cbn [rev].
    by rewrite <- app_assoc.
Qed.

(** A line and its terminator, LF or CR LF, in front of more text. *)
Lemma splitlines_from_line (cur l eol rest : str) :
  Forall (λ c, is_linebreak c = false) l →
  eol = LF ∨ eol = CRLF →
  splitlines_from cur (l ++ eol ++ rest)
  = (rev cur ++ l) :: splitlines_from [] rest.
Proof.
  intros Hl Heol. revert cur. induction Hl as [|c l Hc _ IH]; intros cur.
  - rewrite app_nil_r. destruct Heol as [-> | ->]; cbn.
    + by destruct rest.
    + done.
  - cbn [app splitlines_from]. rewrite Hc, IH. cbn [rev].
    by rewrite <- app_assoc.
Qed.

Lemma splitlines_sse_frame (eol : str) (payloads : list str) :
  eol = LF ∨ eol = CRLF →
  Forall (Forall (λ c, is_linebreak c = false)) payloads →
  splitlines (sse_frame eol payloads)
  = payloads ≫= (λ p, [lit "data: " ++ p; []]).
Proof.
  intros Heol Hps. unfold splitlines, sse_frame.
  induction Hps as [|p ps Hp _ IH]; [done|].
  cbn [fmap list_fmap concat mbind list_bind].
  set (rest := concat _) in *.
  replace ((lit "data: " ++ p ++ eol ++ eol) ++ rest)
    with ((lit "data: " ++ p) ++ eol ++ ([] ++ eol ++ rest))
    by (by rewrite <- !app_assoc).
  rewrite (splitlines_from_line [] (lit "data: " ++ p) eol); [|..|done].
  - rewrite (splitlines_from_line [] [] eol) by (done || constructor).
    cbn [rev app]. by rewrite IH.
  - apply Forall_app. split; [|done].
    vm_compute. repeat constructor.
Qed.

(** X5. A body of status below 400 without any line boundary, the empty
    body included, is read as a single line: when it is a [data:] line whose
    payload parses the payload is the result; otherwise the result is that
    of the whole-body parse, an empty or non-JSON body giving the
    "unexpected response" error. *)
Theorem single_line_body
    (loads : str → result JSON) σ h r rest payload extra timeout :
  http (self σ) = Some h →
  pending σ = Answers r :: rest →
  resp_status r < 400 →
  Forall (λ c, is_linebreak c = false) (resp_text r) →
  (_post loads payload extra timeout σ).1
  = match sse_payload loads (resp_text r) with
    | Some m => Return m
    | None =>
        match loads (resp_text r) with
        | Return v => Return v
        | Raise JSONDecodeError =>
            Raise (RuntimeError
                     (lit "Unexpected MCP response: "
                        ++ take 200 (resp_text r)))
        | Raise e => Raise e
        end
    end.
Proof.
  intros Hh Hp Hst Hplain.
  rewrite (_post_answers loads σ h r rest) by done. cbn [fst].
  unfold decode. apply Z.leb_gt in Hst. rewrite Hst.
  unfold splitlines. rewrite splitlines_from_plain by done. cbn [rev app].
  destruct (resp_text r) as [|c s]; [done|].
  cbn [omap list_omap]. by destruct (sse_payload loads (c :: s)).
Qed.

Lemma single_line_body_witness :
  (_post Reader.loads (encode 2 (lit "tools/list") (JObject [])) None 25
     (opened [Answers bare_event_reply])).1 = Return (JInt 7).
Proof.
  rewrite (single_line_body Reader.loads (opened [Answers bare_event_reply])
             0%nat bare_event_reply []).
  - vm_compute. reflexivity.
  - reflexivity.
  - reflexivity.
  - reflexivity.
  - vm_compute. repeat constructor.
Defined.

(** X6. A stream of server-sent events, each payload on a [data: ] line
    without line boundaries inside, lines and events closed by LF or by
    CR LF alike, decodes to the last event when its payload parses; the
    events before it do not matter. *)
Theorem sse_frames_decode
    (loads : str → result JSON) σ h r rest payload extra timeout
    (eol : str) (earlier : list str) (p : str) (v : JSON) :
  http (self σ) = Some h →
  pending σ = Answers r :: rest →
  resp_status r < 400 →
  eol = LF ∨ eol = CRLF →
  Forall (Forall (λ c, is_linebreak c = false)) (earlier ++ [p]) →
  resp_text r = sse_frame eol (earlier ++ [p]) →
  loads (strip p) = Return v →
  (_post loads payload extra timeout σ).1 = Return v.
Proof.
  intros Hh Hp Hst Heol Hplain Htext Hv.
  rewrite (_post_answers loads σ h r rest) by done. cbn [fst].
  unfold decode. apply Z.leb_gt in Hst. rewrite Hst, Htext.
  rewrite splitlines_sse_frame by done.
  rewrite bind_app. cbn [mbind list_bind app].
  rewrite (last_omap_split _ _ [[]] (lit "data: " ++ p) v); [done| |].
  - unfold sse_payload.
    assert (startswith (lit "data:") (lit "data: " ++ p) = true) as ->.
    { apply bool_decide_eq_true. by exists (32%N :: p). }
    change (drop 5 (lit "data: " ++ p)) with (32%N :: p).
    change (strip (32%N :: p)) with (strip p). by rewrite Hv.
  - intros l Hl. apply elem_of_cons in Hl as [->|Hl]; [done|].
    by apply elem_of_nil in Hl.
Qed.

Lemma sse_frames_decode_witness :
  (_post Reader.loads (encode 2 (lit "tools/list") (JObject [])) None 25
     (opened [Answers crlf_reply])).1
  = Return (JObject [(lit "id", JInt 1);
                     (lit "result", JString (lit "done"))]).
Proof.
  apply (sse_frames_decode Reader.loads (opened [Answers crlf_reply]) 0%nat
           crlf_reply [] (encode 2 (lit "tools/list") (JObject [])) None 25
           CRLF [json_lit "{'id':1,'type':'progress'}"]
           (json_lit "{'id':1,'result':'done'}")).
  - reflexivity.
  - reflexivity.
  - reflexivity.
  - right. reflexivity.
  - vm_compute. repeat constructor.
  - reflexivity.
  - vm_compute. reflexivity.
Defined.

(** ** Beyond the claims: sessions opened and closed *)

Lemma opened_in_app evs1 evs2 :
  opened_in (evs1 ++ evs2) = opened_in evs1 ++ opened_in evs2.
Proof.
  induction evs1 as [|[| | |] evs1 IH]; cbn; by rewrite ?IH.
Qed.

Lemma closed_in_app evs1 evs2 :
  closed_in (evs1 ++ evs2) = closed_in evs1 ++ closed_in evs2.
Proof.
  induction evs1 as [|[| | |] evs1 IH]; cbn; by rewrite ?IH.
Qed.

(** What a call does to the sessions: it opens a new one and holds it, or
    closes the one held and holds none, or leaves all as they are. *)
Lemma perform_sessions (loads : str → result JSON) c σ :
  (trace (perform loads c σ) = trace σ ++ [Opened (length (trace σ))] ∧
   http (self (perform loads c σ)) = Some (length (trace σ))) ∨
  (∃ h, http (self σ) = Some h ∧
        trace (perform loads c σ) = trace σ ++ [Closed h] ∧
        http (self (perform loads c σ)) = None) ∨
  (∃ evs, trace (perform loads c σ) = trace σ ++ evs ∧
          opened_in evs = [] ∧ closed_in evs = [] ∧
          http (self (perform loads c σ)) = http (self σ)).
Proof.
  destruct c as [| |payload extra timeout| | |name arguments];
    cbn [perform].
  - left. by cbn.
  - right. unfold __aexit__, bind, get_self.
    destruct (http (self σ)) as [h|] eqn:Hh.
    + left. exists h. by cbn.
    + right. exists []. cbn. by rewrite app_nil_r, Hh.
  - right. right.
    destruct (_post_wire_only loads σ payload extra timeout)
      as (Hh & evs & Ht & Ho & Hc). eauto.
  - right. right. rewrite initialize_eq.
    destruct (_post_wire_only loads σ
                (encode 1 (lit "initialize")
                   (JObject
                      [(lit "protocolVersion", JString MCP_VERSION);
                       (lit "capabilities", JObject []);
                       (lit "clientInfo",
                        JObject
                          [(lit "name", JString (lit "azure-http-client"));
                           (lit "version", JString (lit "1.0"))])]))
                None 25)
      as (Hh & evs & Ht & Ho & Hc). eauto.
  - right. right. rewrite list_tools_eq.
    destruct (_post_wire_only loads σ
                (encode 2 (lit "tools/list") (JObject [])) None 25)
      as (Hh & evs & Ht & Ho & Hc). eauto.
  - right. right. rewrite call_tool_eq.
    destruct (_post_wire_only loads σ
                (encode 3 (lit "tools/call")
                   (JObject [(lit "name", JString name);
                             (lit "arguments", arguments)]))
                None 25)
      as (Hh & evs & Ht & Ho & Hc). eauto.
Qed.

Lemma perform_handles_ok (loads : str → result JSON) c σ :
  handles_ok σ → handles_ok (perform loads c σ).
Proof.
  intros (Hlt & Hno & Hnc & Hco & Hheld). unfold handles_ok.
  destruct (perform_sessions loads c σ)
    as [(Ht & Hh) | [(h & Hh0 & Ht & Hh) | (evs & Ht & Ho & Hc & Hh)]];
    rewrite Ht, Hh, opened_in_app, closed_in_app, length_app.
  - cbn [opened_in closed_in]. rewrite app_nil_r.
    assert (length (trace σ) ∉ opened_in (trace σ)) as Hfresh.
    { intros Hin. apply Hlt in Hin. lia. }
    split; [|split; [|split; [|split]]].
    + intros h Hin. apply elem_of_app in Hin as [Hin|Hin].
      * apply Hlt in Hin. lia.
      * apply elem_of_cons in Hin as [->|Hin]; [cbn; lia|].
        by apply elem_of_nil in Hin.
    + apply NoDup_app. split; [done|]. split; [|apply NoDup_singleton].
      intros x Hx Hx'. apply elem_of_cons in Hx' as [->|Hx']; [done|].
      by apply elem_of_nil in Hx'.
    + done.
    + intros h Hin. apply elem_of_app. left. by apply Hco.
    + intros h [= <-]. split.
      * apply elem_of_app. right. apply list_elem_of_here.
      * intros Hin. apply Hfresh. by apply Hco.
  - cbn [opened_in closed_in]. rewrite app_nil_r.
    destruct (Hheld h Hh0) as [Hin Hnin].
    split; [|split; [|split; [|split]]].
    + intros x Hx. apply Hlt in Hx. lia.
    + done.
    + apply NoDup_app. split; [done|]. split; [|apply NoDup_singleton].
      intros x Hx Hx'. apply elem_of_cons in Hx' as [->|Hx']; [done|].
      by apply elem_of_nil in Hx'.
    + intros x Hx. apply elem_of_app in Hx as [Hx|Hx]; [by apply Hco|].
      apply elem_of_cons in Hx as [->|Hx]; [done|].
      by apply elem_of_nil in Hx.
    + intros x [=].
  - rewrite Ho, Hc, !app_nil_r.
    split; [|split; [|split; [|split]]]; try done.
    intros x Hx. apply Hlt in Hx. lia.
Qed.

Lemma run_handles_ok (loads : str → result JSON) cs σ :
  handles_ok σ → handles_ok (run loads cs σ).
Proof.
  revert σ. induction cs as [|c cs IH]; intros σ Hσ; [done|].
  cbn [run foldl]. apply IH. by apply perform_handles_ok.
Qed.

Lemma boot_handles_ok url script : handles_ok (boot url script).
Proof.
  unfold handles_ok, boot. cbn.
  split; [|split; [|split; [|split]]];
    try apply NoDup_nil_2; try done;
    intros h Hin; by apply elem_of_nil in Hin.
Qed.

(** X7. In every state a session reaches from a fresh client, whatever the
    calls and their order: no session has been closed twice, none has been
    closed that was not opened, and the session the client holds, if any,
    has been opened and not closed. *)
Theorem sessions_in_order (loads : str → result JSON) url script cs :
  NoDup (closed_in (trace (run loads cs (boot url script)))) ∧
  (∀ h, h ∈ closed_in (trace (run loads cs (boot url script))) →
        h ∈ opened_in (trace (run loads cs (boot url script)))) ∧
  (∀ h, http (self (run loads cs (boot url script))) = Some h →
        h ∈ opened_in (trace (run loads cs (boot url script))) ∧
        h ∉ closed_in (trace (run loads cs (boot url script)))).
Proof.
  destruct (run_handles_ok loads cs (boot url script)
              (boot_handles_ok url script))
    as (_ & _ & Hnc & Hco & Hheld).
  auto.
Qed.

(** A session that is open and not held stays open for ever. *)
Lemma unheld_stays_open (loads : str → result JSON) cs σ h :
  handles_ok σ →
  h ∈ opened_in (trace σ) →
  h ∉ closed_in (trace σ) →
  http (self σ) ≠ Some h →
  h ∉ closed_in (trace (run loads cs σ)).
Proof.
  revert σ. induction cs as [|c cs IH]; intros σ Hok Ho Hc Hh; [done|].
  cbn [run foldl].
  pose proof (perform_handles_ok loads c σ Hok) as Hok'.
  destruct Hok as (Hlt & _).
  destruct (perform_sessions loads c σ)
    as [(Ht & Hh') | [(h' & Hh0 & Ht & Hh') | (evs & Ht & Ho' & Hc' & Hh')]];
    (apply IH; [done|..]);
    rewrite ?Ht, ?Hh', ?opened_in_app, ?closed_in_app;
    cbn [opened_in closed_in]; rewrite ?Ho', ?Hc', ?app_nil_r.
  - apply elem_of_app. by left.
  - done.
  - intros [= <-]. apply Hlt in Ho. lia.
  - done.
  - intros Hin. apply elem_of_app in Hin as [Hin|Hin]; [done|].
    apply elem_of_cons in Hin as [->|Hin]; [congruence|].
    by apply elem_of_nil in Hin.
  - done.
  - done.
  - done.
  - done.
Qed.

(** X8. [__aenter__] on a client that already holds a session takes a new
    session and lets go of the old one without closing it: whatever calls
    follow, the old session is never closed. *)
Theorem reentered_session_leaks
    (loads : str → result JSON) url script cs1 cs2 h :
  http (self (run loads cs1 (boot url script))) = Some h →
  h ∈ opened_in (trace (run loads (cs1 ++ Enter :: cs2) (boot url script))) ∧
  (h ∉ closed_in (trace (run loads (cs1 ++ Enter :: cs2) (boot url script)))) ∧
  http (self (run loads (cs1 ++ [Enter]) (boot url script))) ≠ Some h.
Proof.
  intros Hh.
  pose proof (run_handles_ok loads cs1 (boot url script)
                (boot_handles_ok url script)) as Hok.
  unfold run in *. rewrite !foldl_app. cbn [foldl].
  set (σ := foldl (λ σ c, perform loads c σ) (boot url script) cs1) in *.
  assert (handles_ok (perform loads Enter σ)) as Hok'.
  { by apply perform_handles_ok. }
  destruct Hok as (Hlt & Hno & Hnc & Hco & Hheld).
  destruct (Hheld h Hh) as [Ho Hc].
  assert (h ∈ opened_in (trace (perform loads Enter σ))) as Ho'.
  { cbn. rewrite opened_in_app. apply elem_of_app. by left. }
  assert (h ∉ closed_in (trace (perform loads Enter σ))) as Hc'.
  { cbn. rewrite closed_in_app. cbn. by rewrite app_nil_r. }
  assert (http (self (perform loads Enter σ)) ≠ Some h) as Hh'.
  { cbn. intros [= <-]. apply Hlt in Ho. lia. }
  split; [|split; [by apply (unheld_stays_open loads cs2)|done]].
  clear -Ho'. revert Ho'. generalize (perform loads Enter σ). intros σ'.
  revert σ'. induction cs2 as [|c cs2 IH]; intros σ' Ho'; [done|].
  cbn [foldl]. apply IH.
  destruct (perform_sessions loads c σ')
    as [(Ht & _) | [(h' & _ & Ht & _) | (evs & Ht & _)]];
    rewrite Ht, opened_in_app; apply elem_of_app; by left.
Qed.

Lemma reentered_session_leaks_witness :
  0%nat ∉ closed_in
    (trace (run Reader.loads ([Enter] ++ Enter :: [ListTools; Exit; Exit])
              (boot MCP_URL [Answers json_reply]))).
Proof.
  apply (reentered_session_leaks Reader.loads MCP_URL [Answers json_reply]
           [Enter] [ListTools; Exit; Exit] 0%nat).
  reflexivity.
Defined.

(** ** Beyond the claims: the trading flows *)

Lemma flow_ok_ret {A} (loads : str → result JSON) σ h (a : A) :
  http (self σ) = Some h → flow_ok loads [] σ h (ret a σ).
Proof.
  intros Hh. exists []. cbn. rewrite app_nil_r.
  split; [done|]. split; [constructor|]. split; [done|].
  split; [done|]. split; [done|]. split; [done|]. split; [done|].
  split; [lia | eauto].
Qed.

(** One more call in front of a flow. *)
Lemma flow_ok_post {A} (loads : str → result JSON) p plan σ h (k : JSON → M A) :
  http (self σ) = Some h →
  session_id (self σ) ≠ Some [] →
  (∀ v σ', http (self σ') = Some h → session_id (self σ') ≠ Some [] →
           flow_ok loads plan σ' h (k v σ')) →
  flow_ok loads (p :: plan) σ h (bind (_post loads p None 25) k σ).
Proof.
  intros Hh Htok Hk. unfold bind, flow_ok.
  assert (req_headers (request_of σ p None 25) !! session_key
          = session_id (self σ)) as Hreq.
  { cbn [request_of req_headers]. by apply sent_headers_token. }
  pose proof (_post_unanswered loads σ h p None 25 Hh) as Hu.
  destruct (pending σ) as [|[r|e] rest] eqn:Hp; cbn [successes succeeds].
  - rewrite Hu. exists [Posted h (request_of σ p None 25)].
    cbn [fst snd with_world trace pending self posts fmap list_fmap
         take length drop token_after echoes req_json request_of].
    split; [done|]. split; [by repeat constructor|].
    split; [done|]. split; [done|]. split; [done|]. split; [done|].
    split; [done|]. split; [intros [a [=]] | lia].
  - rewrite (_post_answers loads σ h r rest) by done.
    destruct (decode loads r) as [v|e] eqn:Hd.
    + destruct (Hk v (with_token (observe (session_id (self σ)) r)
                        (with_world
                           [Posted h (request_of σ p None 25); Received r]
                           rest σ)))
        as (evs & Ht & Hw & Hb & Hpe & Hh' & Hs & He & Hr).
      { done. }
      { cbn. by apply observe_nonempty. }
      exists (Posted h (request_of σ p None 25) :: Received r :: evs).
      cbn [fst snd with_world with_token trace pending self session_id]
        in Ht, Hb, Hpe, Hs, He, Hr.
      cbn [fst snd posts fmap list_fmap take length drop token_after echoes
           req_json request_of].
      split; [by rewrite Ht, <- app_assoc|].
      split; [by repeat constructor|].
      split; [by rewrite Hb|]. split; [done|]. split; [done|].
      split; [done|]. split; [done|].
      rewrite Hr. lia.
    + exists [Posted h (request_of σ p None 25); Received r].
      cbn [fst snd with_world with_token trace pending self session_id posts
           fmap list_fmap take length drop token_after echoes req_json
           request_of].
      split; [done|]. split; [by repeat constructor|].
      split; [done|]. split; [done|]. split; [done|]. split; [done|].
      split; [done|]. split; [intros [a [=]] | lia].
  - rewrite Hu. exists [Posted h (request_of σ p None 25)].
    cbn [fst snd with_world trace pending self posts fmap list_fmap
         take length drop token_after echoes req_json request_of].
    split; [done|]. split; [by repeat constructor|].
    split; [done|]. split; [done|]. split; [done|]. split; [done|].
    split; [done|]. split; [intros [a [=]] | lia].
Qed.

Lemma bind_initialize {A} (loads : str → result JSON) (k : JSON → M A) σ :
  bind (initialize loads) k σ
  = bind (_post loads initialize_envelope None 25) k σ.
Proof.
  unfold bind. rewrite initialize_eq. reflexivity.
Qed.

(** A flow inside [async with] on a new client. *)
Lemma flow_scoped {A} (loads : str → result JSON) plan (body : M A) σ :
  (∀ σ1 h, http (self σ1) = Some h → session_id (self σ1) = None →
           flow_ok loads plan σ1 h (body σ1)) →
  ∃ evs,
    trace ((let! _ := new_client MCP_URL in async_with body) σ).2
    = trace σ ++ Opened (length (trace σ)) :: evs
        ++ [Closed (length (trace σ))] ∧
    Forall (wire_event (length (trace σ))) evs ∧
    req_json <$> posts evs = take (S (successes loads (pending σ))) plan ∧
    echoes None evs ∧
    pending ((let! _ := new_client MCP_URL in async_with body) σ).2
    = drop (length (posts evs)) (pending σ) ∧
    http (self ((let! _ := new_client MCP_URL in async_with body) σ).2)
    = None ∧
    ((∃ a, ((let! _ := new_client MCP_URL in async_with body) σ).1 = Return a)
     ↔ (length plan ≤ successes loads (pending σ))%nat).
Proof.
  intros Hbody.
  set (σ1 := {| self := {| base_url := MCP_URL; session_id := None;
                           http := Some (length (trace σ)) |};
                trace := trace σ ++ [Opened (length (trace σ))];
                pending := pending σ |}).
  assert ((let! _ := new_client MCP_URL in async_with body) σ
          = match body σ1 with
            | (Return a, σ2) => (let! _ := __aexit__ in ret a) σ2
            | (Raise e, σ2) => (let! _ := __aexit__ in raise e) σ2
            end) as -> by reflexivity.
  destruct (Hbody σ1 (length (trace σ)) eq_refl eq_refl)
    as (evs & Ht & Hw & Hb & Hpe & Hh & Hs & He & Hr).
  exists evs.
  destruct (body σ1) as [[a|e] σ2]; cbn [fst snd] in *;
    unfold bind, __aexit__, bind, get_self; rewrite Hh;
    unfold ClientSession_close, emit, set_http, ret, raise;
    cbn [self trace pending base_url session_id http fst snd];
    rewrite Ht; subst σ1; cbn [self trace pending session_id] in *;
    rewrite <- !app_assoc; cbn [app];
    (split; [done|]); (split; [done|]); (split; [done|]);
    (split; [done|]); (split; [done|]); (split; [done|]);
    rewrite <- Hr; split; eauto.
Qed.

(** X9. [execute_trade] opens one session and closes it last, on every way
    out. It sends [initialize] and then, only if that exchange gave a
    message, the [place_stock_order] call with the symbol, side and quantity
    as a market day order; each request carries the token accepted so far;
    it returns exactly when both exchanges gave a message. *)
Theorem execute_trade_gated (loads : str → result JSON) σ symbol qty side :
  ∃ evs,
    trace (execute_trade loads symbol qty side σ).2
    = trace σ ++ Opened (length (trace σ)) :: evs
        ++ [Closed (length (trace σ))] ∧
    Forall (wire_event (length (trace σ))) evs ∧
    req_json <$> posts evs
    = take (S (successes loads (pending σ)))
        [initialize_envelope;
         tool_envelope (lit "place_stock_order")
           (market_order symbol side qty)] ∧
    echoes None evs ∧
    pending (execute_trade loads symbol qty side σ).2
    = drop (length (posts evs)) (pending σ) ∧
    http (self (execute_trade loads symbol qty side σ).2) = None ∧
    ((execute_trade loads symbol qty side σ).1 = Return () ↔
     (2 ≤ successes loads (pending σ))%nat) ∧
    (tool_envelope (lit "place_stock_order") (market_order symbol side qty)
       ∈ req_json <$> posts evs →
     ∃ r rest v, pending σ = Answers r :: rest ∧ decode loads r = Return v).
Proof.
  destruct (flow_scoped loads
              [initialize_envelope;
               tool_envelope (lit "place_stock_order")
                 (market_order symbol side qty)]
              (let! _ := initialize loads in
               let! result :=
                 call_tool loads (lit "place_stock_order")
                   (market_order symbol side qty) in
               ret ()) σ)
    as (evs & Ht & Hw & Hb & He & Hpe & Hh & Hr).
  { intros σ1 h Hh Htok. rewrite bind_initialize.
    apply flow_ok_post; [done|by rewrite Htok|].
    intros v1 σ2 Hh2 Htok2.
    apply (flow_ok_post loads
             (tool_envelope (lit "place_stock_order")
                (market_order symbol side qty))); [done|done|].
    intros v2 σ3 Hh3 Htok3. by apply flow_ok_ret. }
  exists evs.
  split; [exact Ht|]. split; [done|]. split; [done|]. split; [done|].
  split; [exact Hpe|]. split; [exact Hh|]. split.
  - rewrite <- Hr. split; [eauto|by intros [[] ?]].
  - rewrite Hb. intros Hin.
    destruct (pending σ) as [|[r|e] rest]; cbn [successes succeeds] in Hin.
    + apply elem_of_cons in Hin as [[=]|Hin]. by apply elem_of_nil in Hin.
    + destruct (decode loads r) as [v|e] eqn:Hd; [eauto|].
      apply elem_of_cons in Hin as [[=]|Hin]. by apply elem_of_nil in Hin.
    + apply elem_of_cons in Hin as [[=]|Hin]. by apply elem_of_nil in Hin.
Qed.

(** X10. [run_alpaca_executor] opens one session and closes it last, on
    every way out. It sends the five requests of its plan in order and stops
    at the first exchange that gives no message: after [k] exchanges that
    succeed it has sent the first [k + 1] requests of the plan, five at
    most, taken one answer for each, and put on each the token accepted so
    far; it returns exactly when all five exchanges gave a message. *)
Theorem run_alpaca_executor_stops_at_failure (loads : str → result JSON) σ :
  ∃ evs,
    trace (run_alpaca_executor loads σ).2
    = trace σ ++ Opened (length (trace σ)) :: evs
        ++ [Closed (length (trace σ))] ∧
    Forall (wire_event (length (trace σ))) evs ∧
    req_json <$> posts evs
    = take (S (successes loads (pending σ))) executor_plan ∧
    echoes None evs ∧
    pending (run_alpaca_executor loads σ).2
    = drop (length (posts evs)) (pending σ) ∧
    http (self (run_alpaca_executor loads σ).2) = None ∧
    ((run_alpaca_executor loads σ).1 = Return () ↔
     (5 ≤ successes loads (pending σ))%nat).
Proof.
  destruct (flow_scoped loads executor_plan
              (let! init := initialize loads in
               let! tools := list_tools loads in
               let! account :=
                 call_tool loads (lit "get_account_info") (JObject []) in
               let! positions :=
                 call_tool loads (lit "get_positions") (JObject []) in
               let! order :=
                 call_tool loads (lit "place_stock_order")
                   (market_order (lit "AAPL") (lit "buy") 1) in
               ret ()) σ)
    as (evs & Ht & Hw & Hb & He & Hpe & Hh & Hr).
  { intros σ1 h Hh Htok. rewrite bind_initialize.
    apply flow_ok_post; [done|by rewrite Htok|].
    intros v1 σ2 Hh2 Htok2.
    apply (flow_ok_post loads (encode 2 (lit "tools/list") (JObject [])));
      [done|done|].
    intros v2 σ3 Hh3 Htok3.
    apply (flow_ok_post loads
             (tool_envelope (lit "get_account_info") (JObject [])));
      [done|done|].
    intros v3 σ4 Hh4 Htok4.
    apply (flow_ok_post loads
             (tool_envelope (lit "get_positions") (JObject [])));
      [done|done|].
    intros v4 σ5 Hh5 Htok5.
    apply (flow_ok_post loads
             (tool_envelope (lit "place_stock_order")
                (market_order (lit "AAPL") (lit "buy") 1)));
      [done|done|].
    intros v5 σ6 Hh6 Htok6. by apply flow_ok_ret. }
  exists evs.
  split; [exact Ht|]. split; [done|]. split; [done|]. split; [done|].
  split; [exact Hpe|]. split; [exact Hh|].
  rewrite <- Hr. split; [eauto|by intros [[] ?]].
Qed.

Lemma execute_trade_gated_witness :
  ∃ r rest v,
    pending (boot MCP_URL [Answers sse_reply; Answers json_reply])
    = Answers r :: rest ∧
    decode Reader.loads r = Return v.
Proof.
  destruct (execute_trade_gated Reader.loads
              (boot MCP_URL [Answers sse_reply; Answers json_reply])
              (lit "AAPL") 1 (lit "buy"))
    as (evs & _ & _ & Hb & _ & _ & _ & _ & Hgate).
  apply Hgate. rewrite Hb.
  assert (successes Reader.loads
            (pending (boot MCP_URL [Answers sse_reply; Answers json_reply]))
          = 2%nat) as -> by (vm_compute; reflexivity).
  cbn [take]. apply list_elem_of_further, list_elem_of_here.
Defined.

Lemma sessions_in_order_witness :
  0%nat ∈ opened_in (trace (run Reader.loads [Enter; ListTools]
                              (boot MCP_URL [Answers json_reply]))) ∧
  0%nat ∉ closed_in (trace (run Reader.loads [Enter; ListTools]
                              (boot MCP_URL [Answers json_reply]))).
Proof.
  destruct (sessions_in_order Reader.loads MCP_URL [Answers json_reply]
              [Enter; ListTools]) as (_ & _ & Hheld).
  apply Hheld. reflexivity.
Defined.

(** ** The decoder on bodies as they are framed *)











